(** * A browser tool panel and its conversion endpoint

    Shallow embedding of the two programs of the repository:

    - [netlify/functions/convert.js]: the serverless [handler] that answers
      the conversion request;
    - [src/components/ToolsApp.tsx]: the event handlers of the React
      component ([handleFileUpload], [convertDocument], [compressImages],
      [handleFileOperation]).

    Conventions.  A JavaScript string is represented by the bytes of its
    UTF-8 encoding (Rocq's [string]); the separators and prefixes the code
    searches for are ASCII, so [split] and [startsWith] act on the encoding
    as they act on the string.  A buffer is a list of bytes, and
    [buf.toString()] decodes it as UTF-8, with U+FFFD in the place of what
    is ill-formed.  Integral JavaScript numbers (identifiers, byte sizes,
    pixel counts, clock readings) are [Z]: all of them stay far below 2^53,
    where double arithmetic on integers is exact.  The only fractional
    arithmetic of the program, the scaling of the image dimensions in the
    [load] handler of [compressImages], is modelled with correctly rounded
    binary64 operations.  An awaited promise may stay unsettled: the call
    that awaits it then stays suspended. *)

From Stdlib Require Import ZArith QArith Qround Qpower Lqa Lia String Ascii List.
From Stdlib.Strings Require Import Byte.
From Stdlib Require Uint63.
From Stdlib.Floats Require PrimFloat FloatOps SpecFloat.
From stdpp Require Import gmap strings list pretty.

Local Open Scope string_scope.
Local Open Scope Z_scope.

(** ** Exceptions *)

(** A thrown JavaScript value; the program only ever reads [error.message]. *)
Record Error := mkError { error_name : string; error_message : string }.

(** Result of an expression that can throw, or of an awaited promise
    (a rejection is a throw at the [await]). *)
Inductive res (A : Type) : Type :=
| Ok (a : A)
| Throw (e : Error).
Arguments Ok {A} a.
Arguments Throw {A} e.

Definition res_bind {A B} (r : res A) (k : A -> res B) : res B :=
  match r with
  | Ok a => k a
  | Throw e => Throw e
  end.

Notation "x <- r ;;; k" := (res_bind r (fun x => k))
  (at level 100, r at next level, right associativity).

(** ** JavaScript strings *)

Module JS.

(** [s.split(sep)] for a non-empty separator.  [skip] counts the characters
    of a separator occurrence that are still to be passed over. *)
Fixpoint split_from (sep : string) (skip : nat) (s : string) : list string :=
  match s with
  | EmptyString => [EmptyString]
  | String c s' =>
      match skip with
      | S k => split_from sep k s'
      | O =>
          if String.prefix sep s
          then EmptyString :: split_from sep (String.length sep - 1) s'
          else match split_from sep 0 s' with
               | p :: ps => String c p :: ps
               | [] => [String c EmptyString]
               end
      end
  end.

Definition split (sep s : string) : list string := split_from sep 0 s.

(** [arr.pop()] read as an expression: the last element. *)
Definition pop (l : list string) : string := List.last l EmptyString.

(** [s.startsWith(p)] *)
Definition startsWith (p s : string) : bool := String.prefix p s.

(** Truthiness of a string: only the empty string is falsy. *)
Definition truthy (s : string) : bool := negb (String.eqb s EmptyString).

(** Template-literal rendering of an integral number. *)
Definition show (n : Z) : string := pretty n.

Definition dquote : string := String "034"%char EmptyString.

(** [JSON.stringify] of a string: the quoted, escaped form. *)
Definition hex_digit (n : N) : ascii :=
  match n with
  | 0 => "0" | 1 => "1" | 2 => "2" | 3 => "3" | 4 => "4" | 5 => "5"
  | 6 => "6" | 7 => "7" | 8 => "8" | 9 => "9" | 10 => "a" | 11 => "b"
  | 12 => "c" | 13 => "d" | 14 => "e" | _ => "f"
  end%N%char.

Definition json_escape (c : ascii) : string :=
  let n := N_of_ascii c in
  if (n =? 34)%N then "\" ++ dquote
  else if (n =? 92)%N then "\\"
  else if (n =? 8)%N then "\b"
  else if (n =? 12)%N then "\f"
  else if (n =? 10)%N then "\n"
  else if (n =? 13)%N then "\r"
  else if (n =? 9)%N then "\t"
  else if (n <? 32)%N
       then "\u00" ++ String (hex_digit (n / 16)) (String (hex_digit (n mod 16)) EmptyString)
       else String c EmptyString.

Fixpoint json_escape_all (s : string) : string :=
  match s with
  | EmptyString => EmptyString
  | String c s' => json_escape c ++ json_escape_all s'
  end.

Definition json_string (s : string) : string :=
  dquote ++ json_escape_all s ++ dquote.

(** [JSON.stringify({ error: msg })] *)
Definition json_error (msg : string) : string :=
  "{" ++ json_string "error" ++ ":" ++ json_string msg ++ "}".

End JS.

(** ** Base64, as [Buffer.prototype.toString('base64')] writes it *)

Module Base64.

Definition alphabet : string :=
  "ABCDEFGHIJKLMNOPQRSTUVWXYZabcdefghijklmnopqrstuvwxyz0123456789+/".

Definition char_of_sextet (n : N) : ascii :=
  match String.get (N.to_nat n) alphabet with
  | Some c => c
  | None => "="%char
  end.

Definition sextet_of_char (c : ascii) : option N :=
  let n := N_of_ascii c in
  if ((65 <=? n) && (n <=? 90))%N then Some (n - 65)%N
  else if ((97 <=? n) && (n <=? 122))%N then Some (n - 71)%N
  else if ((48 <=? n) && (n <=? 57))%N then Some (n + 4)%N
  else if (n =? 43)%N then Some 62%N
  else if (n =? 47)%N then Some 63%N
  else None.

Fixpoint encode (bs : list byte) : string :=
  match bs with
  | [] => EmptyString
  | [b0] =>
      let n0 := Byte.to_N b0 in
      String (char_of_sextet (n0 / 4))
        (String (char_of_sextet ((n0 mod 4) * 16)) "==")
  | [b0; b1] =>
      let n0 := Byte.to_N b0 in
      let n1 := Byte.to_N b1 in
      String (char_of_sextet (n0 / 4))
        (String (char_of_sextet ((n0 mod 4) * 16 + n1 / 16))
           (String (char_of_sextet ((n1 mod 16) * 4)) "="))
  | b0 :: b1 :: b2 :: rest =>
      let n0 := Byte.to_N b0 in
      let n1 := Byte.to_N b1 in
      let n2 := Byte.to_N b2 in
      String (char_of_sextet (n0 / 4))
        (String (char_of_sextet ((n0 mod 4) * 16 + n1 / 16))
           (String (char_of_sextet ((n1 mod 16) * 4 + n2 / 64))
              (String (char_of_sextet (n2 mod 64)) (encode rest))))
  end%N.

Definition byte_of_N (n : N) : byte :=
  match Byte.of_N n with
  | Some b => b
  | None => x00
  end.

(** The decoder of the platform that delivers a response flagged
    [isBase64Encoded]: groups of four characters, [=] padding in the
    last group only. *)
Fixpoint decode (s : string) : option (list byte) :=
  match s with
  | EmptyString => Some []
  | String c0 (String c1 (String c2 (String c3 rest))) =>
      match sextet_of_char c0, sextet_of_char c1 with
      | Some s0, Some s1 =>
          let b0 := byte_of_N (s0 * 4 + s1 / 16) in
          match sextet_of_char c2, sextet_of_char c3 with
          | Some s2, Some s3 =>
              let b1 := byte_of_N ((s1 mod 16) * 16 + s2 / 4) in
              let b2 := byte_of_N ((s2 mod 4) * 64 + s3) in
              option_map (fun bs => b0 :: b1 :: b2 :: bs) (decode rest)
          | Some s2, None =>
              if Ascii.eqb c3 "=" && String.eqb rest EmptyString
              then Some [b0; byte_of_N ((s1 mod 16) * 16 + s2 / 4)]
              else None
          | None, _ =>
              if Ascii.eqb c2 "=" && Ascii.eqb c3 "=" && String.eqb rest EmptyString
              then Some [b0]
              else None
          end
      | _, _ => None
      end
  | _ => None
  end%N.

End Base64.

(** ** UTF-8, as [Buffer.prototype.toString()] reads it *)

Module Utf8.

(** U+FFFD, the character that stands for each ill-formed part of the
    input. *)
Definition replacement : N := 65533.

(** The decoder in the middle of a character: the bits read so far, the
    number of bytes still to come, and the range the next byte has to be
    in. *)
Record Partial := mkPartial {
  code_point : N;
  needed : nat;
  lower : N;
  upper : N
}.

(** A byte read with no character under way: a character of its own, the
    first byte of a longer character, or a byte that starts none.  The
    ranges of the second byte exclude the overlong forms, the surrogates
    and what lies beyond U+10FFFF. *)
Definition first (b : N) : N + Partial :=
  if (b <=? 127)%N then inl b
  else if ((194 <=? b) && (b <=? 223))%N
  then inr (mkPartial (N.land b 31) 1 128 191)
  else if ((224 <=? b) && (b <=? 239))%N
  then inr (mkPartial (N.land b 15) 2
              (if (b =? 224)%N then 160 else 128)
              (if (b =? 237)%N then 159 else 191))
  else if ((240 <=? b) && (b <=? 244))%N
  then inr (mkPartial (N.land b 7) 3
              (if (b =? 240)%N then 144 else 128)
              (if (b =? 244)%N then 143 else 191))
  else inl replacement.

(** The characters of a byte sequence.  A byte that cannot continue the
    character under way ends it with one U+FFFD and is read again as a
    first byte; so does the end of the input. *)
Fixpoint decode_from (p : option Partial) (bytes : list N) : list N :=
  match bytes with
  | [] => match p with Some _ => [replacement] | None => [] end
  | b :: bytes =>
      match p with
      | Some p =>
          if ((lower p <=? b) && (b <=? upper p))%N then
            let cp := N.lor (N.shiftl (code_point p) 6) (N.land b 63) in
            match needed p with
            | S (S n) => decode_from (Some (mkPartial cp (S n) 128 191)) bytes
            | _ => cp :: decode_from None bytes
            end
          else
            replacement ::
              match first b with
              | inl cp => cp :: decode_from None bytes
              | inr p => decode_from (Some p) bytes
              end
      | None =>
          match first b with
          | inl cp => cp :: decode_from None bytes
          | inr p => decode_from (Some p) bytes
          end
      end
  end.

Definition decode (bytes : list N) : list N := decode_from None bytes.

(** The UTF-8 encoding of one character. *)
Definition encode_one (cp : N) : list N :=
  if (cp <=? 127)%N then [cp]
  else if (cp <=? 2047)%N
  then [N.lor 192 (N.shiftr cp 6); N.lor 128 (N.land cp 63)]
  else if (cp <=? 65535)%N
  then [N.lor 224 (N.shiftr cp 12);
        N.lor 128 (N.land (N.shiftr cp 6) 63);
        N.lor 128 (N.land cp 63)]
  else [N.lor 240 (N.shiftr cp 18);
        N.lor 128 (N.land (N.shiftr cp 12) 63);
        N.lor 128 (N.land (N.shiftr cp 6) 63);
        N.lor 128 (N.land cp 63)].

Definition encode (cps : list N) : list N := cps ≫= encode_one.

Definition to_string (bytes : list N) : string :=
  fold_right (fun b s => String (ascii_of_N b) s) EmptyString bytes.

End Utf8.

(** ** The conversion endpoint ([netlify/functions/convert.js]) *)

(** One entry of the array returned by [multipart.parse]. *)
Module Part.
Record t := mk {
  name : string;
  data : list byte;
  filename : option string;
  type : option string
}.
End Part.

Module Event.
Record t := mk {
  httpMethod : string;
  headers : gmap string string;
  body : option string
}.
End Event.

Module Response.
Record t := mk {
  statusCode : Z;
  headers : gmap string string;
  body : string;
  isBase64Encoded : bool
}.

(** The bytes the client receives: the platform decodes a body flagged
    [isBase64Encoded] and sends any other body as it is. *)
Definition bytes (r : t) : option (list byte) :=
  if isBase64Encoded r then Base64.decode (body r)
  else Some (list_byte_of_string (body r)).
End Response.

(** [buf.toString()]: the buffer decoded as UTF-8.  The string read is
    represented by its own UTF-8 encoding, which is the buffer itself where
    the buffer is well-formed. *)
Definition toString (data : list byte) : string :=
  Utf8.to_string (Utf8.encode (Utf8.decode (Byte.to_N <$> data))).

(** [{ statusCode, body: JSON.stringify({ error }) }]: no [headers], no
    [isBase64Encoded] field. *)
Definition error_response (statusCode : Z) (msg : string) : Response.t :=
  Response.mk statusCode ∅ (JS.json_error msg) false.

Section Handler.

(** The Node runtime's [Buffer.from(event.body, 'base64')] and the
    third-party [multipart.parse]; either may throw. *)
Variable Buffer_from_base64 : option string -> res (list byte).
Variable multipart_parse : list byte -> option string -> res (list Part.t).

(** Lines 14-15: the boundary is what follows the first [boundary=] of the
    [content-type] header ([undefined] when there is none); reading the
    header of an event without one throws. *)
Definition parse_request (event : Event.t) : res (list Part.t) :=
  ct <- match Event.headers event !! "content-type" with
        | Some ct => Ok ct
        | None => Throw (mkError "TypeError"
                    "Cannot read properties of undefined (reading 'split')")
        end ;;;
  let boundary := JS.split "boundary=" ct !! 1%nat in
  buf <- Buffer_from_base64 (Event.body event) ;;;
  multipart_parse buf boundary.

(** [parts.find(part => part.name === n)] *)
Definition find_part (n : string) (parts : list Part.t) : option Part.t :=
  List.find (fun part => String.eqb (Part.name part) n) parts.

Definition fileName (now : Z) (targetFormat : string) : string :=
  "converted-" ++ JS.show now ++ "." ++ targetFormat.

(** The body of the [try] block; [now] is the reading of [Date.now()]. *)
Definition convert (event : Event.t) (now : Z) : res Response.t :=
  parts <- parse_request event ;;;
  let file := find_part "file" parts in
  let targetFormat := option_map (fun part => toString (Part.data part))
                        (find_part "targetFormat" parts) in
  match file, targetFormat with
  | Some file, Some targetFormat =>
      if JS.truthy targetFormat
      then Ok (Response.mk 200
                 {[ "Content-Type" := "application/octet-stream";
                    "Content-Disposition" :=
                      "attachment; filename=" ++ JS.dquote
                        ++ fileName now targetFormat ++ JS.dquote ]}
                 (Base64.encode (Part.data file))
                 true)
      else Ok (error_response 400 "缺少文件或目标格式")
  | _, _ => Ok (error_response 400 "缺少文件或目标格式")
  end.

Definition handler (event : Event.t) (now : Z) : Response.t :=
  if negb (String.eqb (Event.httpMethod event) "POST")
  then error_response 405 "Method not allowed"
  else match convert event now with
       | Ok response => response
       | Throw error => error_response 500 ("转换失败: " ++ error_message error)
       end.

End Handler.

(** ** Binary64 arithmetic, as far as [compressImages] uses it

    JavaScript numbers are IEEE 754 binary64 values and every arithmetic
    operation returns the exact result rounded to the nearest representable
    value, ties to the even significand.  The image routine divides a
    positive constant by a pixel count, takes a minimum and multiplies; all
    its operands are non-negative, so the model carries the non-negative
    finite values (as the rationals they denote), [+Infinity] (division by a
    zero pixel count) and [NaN]. *)

Module Binary64.

Local Open Scope Q_scope.

Inductive t :=
| Finite (q : Q)
| PosInf
| NaN.

(** [floor (log2 x)] for [0 < x]. *)
Definition ilog2 (x : Q) : Z :=
  let e0 := (Z.log2 (Qnum x) - Z.log2 (Zpos (Qden x)))%Z in
  if Qle_bool (2 ^ e0) x then e0 else (e0 - 1)%Z.

(** Nearest integer, ties to even. *)
Definition rne (y : Q) : Z :=
  let f := Qfloor y in
  match Qcompare (y - inject_Z f) (1 # 2) with
  | Lt => f
  | Gt => (f + 1)%Z
  | Eq => if Z.even f then f else (f + 1)%Z
  end.

(** The unit in the last place of the binade of [x]: 52 fraction bits
    below the leading one, and the fixed spacing [2^-1074] under the
    smallest normal number [2^-1022]. *)
Definition ulp (x : Q) : Q := 2 ^ (Z.max (ilog2 x) (-1022) - 52).

(** Rounding of an exact non-negative result. *)
Definition round (x : Q) : t :=
  if Qle_bool x 0 then Finite 0
  else
    let v := Qred (inject_Z (rne (x / ulp x)) * ulp x) in
    if Qle_bool (2 ^ 1024) v then PosInf else Finite v.

(** An integer below [2^53] is a binary64 value. *)
Definition of_Z (z : Z) : t := Finite (inject_Z z).

(** [a / b] *)
Definition div (a b : t) : t :=
  match a, b with
  | Finite x, Finite y =>
      if Qeq_bool y 0
      then (if Qeq_bool x 0 then NaN else PosInf)
      else round (x / y)
  | Finite _, PosInf => Finite 0
  | PosInf, Finite _ => PosInf
  | _, _ => NaN
  end.

(** [a * b] *)
Definition mul (a b : t) : t :=
  match a, b with
  | Finite x, Finite y => round (x * y)
  | Finite x, PosInf | PosInf, Finite x => if Qeq_bool x 0 then NaN else PosInf
  | PosInf, PosInf => PosInf
  | _, _ => NaN
  end.

(** [Math.min(a, b)] *)
Definition min (a b : t) : t :=
  match a, b with
  | NaN, _ | _, NaN => NaN
  | Finite x, Finite y => if Qle_bool x y then a else b
  | Finite _, PosInf => a
  | PosInf, _ => b
  end.

(** Assignment to an [unsigned long] attribute ([canvas.width = x]):
    [NaN] and the infinities become 0, a finite value is truncated and
    reduced modulo [2^32]. *)
Definition to_unsigned_long (a : t) : Z :=
  match a with
  | Finite x => (Qfloor x mod 2 ^ 32)%Z
  | _ => 0%Z
  end.

End Binary64.

(** ** The component ([src/components/ToolsApp.tsx]) *)

(** *** Browser objects *)

Module Blob.
Record t := mk { type : string; data : list byte }.
Definition size (b : t) : Z := Z.of_nat (length (data b)).
End Blob.

(** A [File] is a [Blob] with a name; [size] is the length of its content. *)
Module File.
Record t := mk { name : string; type : string; data : list byte }.
Definition size (f : t) : Z := Z.of_nat (length (data f)).
Definition to_blob (f : t) : Blob.t := Blob.mk (type f) (data f).
End File.

Module FileItem.
Record t := mk {
  id : Z;
  name : string;
  size : Z;
  type : string;
  file : File.t;
  status : string
}.

(** [{ ...f, name: n }] *)
Definition with_name (n : string) (f : t) : t :=
  mk (id f) n (size f) (type f) (file f) (status f).
End FileItem.

(** *** Component state (the [useState] cells) *)

Record State := mkState {
  activeTab : string;
  files : list FileItem.t;
  selectedFiles : list Z;
  loading : bool;
  message : string;
  quality : Z
}.

Definition initial : State := mkState "convert" [] [] false "" 80.

(** [setFiles(prev => f(prev))] and the plain setters. *)
Definition setFiles (f : list FileItem.t -> list FileItem.t) (st : State) : State :=
  mkState (activeTab st) (f (files st)) (selectedFiles st) (loading st)
    (message st) (quality st).

Definition setSelectedFiles (ids : list Z) (st : State) : State :=
  mkState (activeTab st) (files st) ids (loading st) (message st) (quality st).

Definition setLoading (b : bool) (st : State) : State :=
  mkState (activeTab st) (files st) (selectedFiles st) b (message st) (quality st).

Definition setMessage (m : string) (st : State) : State :=
  mkState (activeTab st) (files st) (selectedFiles st) (loading st) m (quality st).

(** *** [handleFileUpload] *)

(** [Date.now()] is read once for each file, inside the [map] callback:
    [Date_now index] is the reading taken for the file at [index]. *)
Definition newFiles (Date_now : nat -> Z) (uploadedFiles : list File.t)
  : list FileItem.t :=
  imap (fun index file =>
          FileItem.mk (Date_now index + Z.of_nat index)
            (File.name file) (File.size file) (File.type file) file "ready")
       uploadedFiles.

(** A record made from an uploaded file. *)
Definition made_from (file : File.t) (r : FileItem.t) : Prop :=
  FileItem.name r = File.name file
  /\ FileItem.size r = File.size file
  /\ FileItem.type r = File.type file
  /\ FileItem.file r = file
  /\ FileItem.status r = "ready".

(** [uploadedFiles] is [None] for [null]. *)
Definition handleFileUpload (Date_now : nat -> Z)
    (uploadedFiles : option (list File.t)) (st : State) : State :=
  match uploadedFiles with
  | None => st
  | Some uploadedFiles =>
      setFiles (fun prev => (prev ++ newFiles Date_now uploadedFiles)%list) st
  end.

(** *** [handleFileOperation] *)

(** The user's answers to the modal dialogs, as functions of the text
    shown: [prompt] gives [None] when cancelled. *)
Record Dialogs := mkDialogs {
  prompt : string -> option string;
  confirm : string -> bool
}.

(** [fileIds.includes(x)] *)
Definition includes (fileIds : list Z) (x : Z) : bool :=
  bool_decide (x ∈ fileIds).

Definition count (fileIds : list Z) : string :=
  JS.show (Z.of_nat (length fileIds)).

(** [name.split('.').pop()]: what follows the last dot, the whole name
    when it has none. *)
Definition extension (name : string) : string := JS.pop (JS.split "." name).

(** A name without a dot. *)
Definition dotless (name : string) : Prop :=
  Forall (fun c => c <> "."%char) (list_ascii_of_string name).

Definition renamed (newName : string) (f : FileItem.t) : FileItem.t :=
  FileItem.with_name
    (newName ++ "-" ++ JS.show (FileItem.id f) ++ "."
       ++ extension (FileItem.name f))
    f.

(** The texts of the dialogs. *)
Definition rename_prompt : string := "请输入新的文件名前缀:".
Definition move_prompt : string := "请输入目标文件夹名称:".
Definition delete_question (fileIds : list Z) : string :=
  "确定要删除选中的 " ++ count fileIds ++ " 个文件吗？".

Definition handleFileOperation (ui : Dialogs) (operation : string)
    (fileIds : list Z) (st : State) : State :=
  let st :=
    if String.eqb operation "rename" then
      match prompt ui rename_prompt with
      | Some newName =>
          if JS.truthy newName then
            setMessage ("已重命名 " ++ count fileIds ++ " 个文件")
              (setFiles
                 (fun prev =>
                    map (fun f => if includes fileIds (FileItem.id f)
                                  then renamed newName f else f) prev)
                 st)
          else st
      | None => st
      end
    else if String.eqb operation "delete" then
      if confirm ui (delete_question fileIds) then
        setMessage ("已删除 " ++ count fileIds ++ " 个文件")
          (setSelectedFiles []
             (setFiles
                (fun prev =>
                   filter (fun f => negb (includes fileIds (FileItem.id f))) prev)
                st))
      else st
    else if String.eqb operation "copy" then
      setMessage ("已复制 " ++ count fileIds ++ " 个文件到剪贴板") st
    else if String.eqb operation "move" then
      match prompt ui move_prompt with
      | Some folder =>
          if JS.truthy folder then
            setMessage ("已将 " ++ count fileIds ++ " 个文件移动到 "
                          ++ folder ++ " 文件夹") st
          else st
      | None => st
      end
    else st
  in
  setSelectedFiles [] st.

(** *** Sequences of list operations *)

Inductive Op :=
| Upload (Date_now : nat -> Z) (uploadedFiles : option (list File.t))
| FileOperation (ui : Dialogs) (operation : string) (fileIds : list Z).

Definition step (st : State) (op : Op) : State :=
  match op with
  | Upload Date_now uploadedFiles => handleFileUpload Date_now uploadedFiles st
  | FileOperation ui operation fileIds =>
      handleFileOperation ui operation fileIds st
  end.

Definition run (ops : list Op) (st : State) : State := fold_left step ops st.

Definition ids (st : State) : list Z := map FileItem.id (files st).

(** *** The browser, seen from the two asynchronous handlers *)

(** What an [await] meets: a promise that settles, fulfilled with a value
    or rejected (a throw at the [await]), or a promise that never settles.
    The program sets no timeout and passes no abort signal. *)
Inductive Awaited (A : Type) : Type :=
| Settles (r : res A)
| Never.
Arguments Settles {A} r.
Arguments Never {A}.

Module Http.
Inductive form_value :=
| FormFile (f : File.t)
| FormString (s : string).

Record request := mkRequest {
  url : string;
  method : string;
  form : list (string * form_value)
}.

(** [blob] is what [await response.blob()] meets. *)
Record response := mkResponse {
  ok : bool;
  blob : Awaited Blob.t
}.
End Http.

(** What happens to an image of the browser once its [src] is set: the
    [load] event, with the dimensions read from [img], or the [error]
    event. *)
Inductive LoadResult :=
| Loaded (width height : Z)
| LoadError.

(** The answers of the browser.  A [res] stands for a call that may throw,
    an [Awaited] for a promise the program awaits. *)
Record Browser := mkBrowser {
  fetch : Http.request -> Awaited Http.response;
  (** The message of the [TypeError] that [new] throws when its operand is
      no constructor; the engine words it. *)
  not_a_constructor : string;
  createObjectURL : Blob.t -> res unit;
  getContext_2d : bool;
  image_load : File.t -> LoadResult;
  drawImage : File.t -> res unit;
  (** [canvas.toBlob(callback, 'image/jpeg', quality / 100)] on a canvas of
      the given width and height: a throw, or the callback's argument. *)
  toBlob : File.t -> Z -> Z -> Z -> res (option Blob.t)
}.

(** A download started by [link.click()]: the blob behind [link.href] and
    the name in [link.download]. *)
Record Download := mkDownload {
  href : Blob.t;
  download : string
}.

(** The page: the component state and the downloads started so far. *)
Record World := mkWorld {
  state : State;
  downloads : list Download
}.

Definition update (f : State -> State) (w : World) : World :=
  mkWorld (f (state w)) (downloads w).

Definition click (d : Download) (w : World) : World :=
  mkWorld (state w) (downloads w ++ [d])%list.

(** How a call of an [async] handler ends: its promise is fulfilled, or the
    handler stays suspended at an [await] whose promise never settles.
    [uncaught] is the exception, if any, that a callback let escape to the
    global error handler. *)
Inductive Outcome :=
| Settled (w : World)
| Pending (w : World) (uncaught : option Error).

Definition escaped (o : Outcome) : option Error :=
  match o with
  | Settled _ => None
  | Pending _ uncaught => uncaught
  end.

(** *** The image size that [img.onload] computes (lines 93-103) *)

Definition maxSize : Z := 1920.

Definition scaled (width height : Z) : Binary64.t * Binary64.t :=
  let w := Binary64.of_Z width in
  let h := Binary64.of_Z height in
  if (maxSize <? width) || (maxSize <? height) then
    let ratio := Binary64.min (Binary64.div (Binary64.of_Z maxSize) w)
                              (Binary64.div (Binary64.of_Z maxSize) h) in
    (Binary64.mul w ratio, Binary64.mul h ratio)
  else (w, h).

(** [canvas.width] and [canvas.height] after the two assignments. *)
Definition canvas_size (width height : Z) : Z * Z :=
  let '(w, h) := scaled width height in
  (Binary64.to_unsigned_long w, Binary64.to_unsigned_long h).

(** The relative error of one rounding, [2^-53], the absolute error of a
    rounding to the subnormal grid, [2^-1075], and the bound they give on
    the rounded quotient [maxSize / n]. *)
Definition eps : Q := 1 # 9007199254740992.
Definition tiny : Q := (2 ^ (-1075))%Q.
Definition quotient_bound (n : Z) : Q :=
  (inject_Z maxSize / inject_Z n * (1 + eps) + tiny)%Q.

Section Handlers.

Variable browser : Browser.

(** The floating-point formatting of the success message is left to the
    engine: [formatFileSize] on a non-zero argument ([Math.log],
    [Math.pow], [toFixed], [parseFloat]) and
    [((savedBytes / totalOriginalSize) * 100).toFixed(1)] for a non-zero
    divisor. *)
Variable formatFileSize_nonzero : Z -> string.
Variable percent_toFixed : Z -> Z -> string.

Definition formatFileSize (bytes : Z) : string :=
  if bytes =? 0 then "0 Bytes" else formatFileSize_nonzero bytes.

Definition savedPercent (savedBytes totalOriginalSize : Z) : string :=
  if totalOriginalSize =? 0 then
    (if savedBytes =? 0 then "NaN"
     else if 0 <? savedBytes then "Infinity" else "-Infinity")
  else percent_toFixed savedBytes totalOriginalSize.

(** **** [convertDocument] *)

(** The [try] block: it runs to its end, throws, or stays at one of its
    two [await]s. *)
Definition convert_try (file : FileItem.t) (targetFormat : string)
    (w : World) : Awaited unit * World :=
  let formData := [("file", Http.FormFile (FileItem.file file));
                   ("targetFormat", Http.FormString targetFormat)] in
  match fetch browser (Http.mkRequest "/api/convert" "POST" formData) with
  | Never => (Never, w)
  | Settles (Throw e) => (Settles (Throw e), w)
  | Settles (Ok response) =>
      if Http.ok response then
        match Http.blob response with
        | Never => (Never, w)
        | Settles (Throw e) => (Settles (Throw e), w)
        | Settles (Ok blob) =>
            match createObjectURL browser blob with
            | Throw e => (Settles (Throw e), w)
            | Ok _ =>
                let name := "converted-"
                              ++ default "" (JS.split "." (FileItem.name file) !! 0%nat)
                              ++ "." ++ targetFormat in
                (Settles (Ok tt),
                 update (setMessage "文档转换成功！")
                   (click (mkDownload blob name) w))
            end
        end
      else (Settles (Throw (mkError "Error" "转换失败")), w)
  end.

Definition convertDocument (file : FileItem.t) (targetFormat : string)
    (w : World) : Outcome :=
  let w := update (setMessage "") (update (setLoading true) w) in
  match convert_try file targetFormat w with
  | (Never, w) => Pending w None
  | (Settles (Ok _), w) => Settled (update (setLoading false) w)
  | (Settles (Throw error), w) =>
      Settled
        (update (setLoading false)
           (update (setMessage ("转换失败: " ++ error_message error)) w))
  end.

(** **** [compressImages] *)

(** The variables of the loop, with the downloads started so far. *)
Record Loop := mkLoop {
  totalOriginalSize : Z;
  totalCompressedSize : Z;
  started : list Download
}.

(** Line 88, [new Image()].  In this module [Image] is the name that
    line 2 imports from lucide-react, an icon component, and not the image
    constructor of the browser, which the import hides.  The component is no
    constructor: [new] throws a [TypeError], inside the [try] block. *)
Definition no_constructor : Error :=
  mkError "TypeError" (not_a_constructor browser).

Definition new_Image : res unit := Throw no_constructor.

(** The [load] handler of lines 91-120 and the [toBlob] callback it
    registers, on the image that line 88 was to make.  They would run as
    tasks of their own: an exception thrown there is not seen by the
    suspended [compressImages], and [resolve] is then never called. *)
Inductive Callback :=
| Resolved (l : Loop)
| Escaped (e : Error) (l : Loop).

Definition onload (quality : Z) (image : FileItem.t) (width height : Z)
    (l : Loop) : Callback :=
  let '(w, h) := canvas_size width height in
  match (if getContext_2d browser then drawImage browser (FileItem.file image)
         else Ok tt) with
  | Throw e => Escaped e l
  | Ok _ =>
      match toBlob browser (FileItem.file image) w h quality with
      | Throw e => Escaped e l
      | Ok None => Resolved l
      | Ok (Some blob) =>
          let l := mkLoop (totalOriginalSize l)
                     (totalCompressedSize l + Blob.size blob) (started l) in
          match createObjectURL browser blob with
          | Throw e => Escaped e l
          | Ok _ =>
              Resolved
                (mkLoop (totalOriginalSize l) (totalCompressedSize l)
                   (started l
                      ++ [mkDownload blob ("compressed-" ++ FileItem.name image)])%list)
          end
      end
  end.

(** [image.type.startsWith('image/')] *)
Definition is_image (image : FileItem.t) : bool :=
  JS.startsWith "image/" (FileItem.type image).

(** How the [for] loop ends. *)
Inductive LoopEnd :=
| Completed (l : Loop)
| Thrown (e : Error) (l : Loop)
| Suspended (uncaught : option Error) (l : Loop).

Fixpoint compress_loop (quality : Z) (images : list FileItem.t) (l : Loop)
  : LoopEnd :=
  match images with
  | [] => Completed l
  | image :: images =>
      if negb (JS.startsWith "image/" (FileItem.type image))
      then compress_loop quality images l
      else
        let l := mkLoop (totalOriginalSize l + FileItem.size image)
                   (totalCompressedSize l) (started l) in
        (* line 88 *)
        match new_Image with
        | Throw e => Thrown e l
        | Ok _ =>
            (* lines 90-122, the promise executor: a throw there rejects
               the promise *)
            match createObjectURL browser (File.to_blob (FileItem.file image)) with
            | Throw e => Thrown e l
            | Ok _ =>
                match image_load browser (FileItem.file image) with
                | LoadError => Suspended None l
                | Loaded width height =>
                    match onload quality image width height l with
                    | Resolved l => compress_loop quality images l
                    | Escaped e l => Suspended (Some e) l
                    end
                end
            end
        end
  end.

Definition add_downloads (ds : list Download) (w : World) : World :=
  mkWorld (state w) (downloads w ++ ds)%list.

Definition compressImages (images : list FileItem.t) (w : World) : Outcome :=
  let quality := quality (state w) in
  let w := update (setMessage "") (update (setLoading true) w) in
  match compress_loop quality images (mkLoop 0 0 []) with
  | Completed l =>
      let savedBytes := totalOriginalSize l - totalCompressedSize l in
      Settled
        (update (setLoading false)
           (update
              (setMessage ("压缩完成！节省了 " ++ formatFileSize savedBytes
                             ++ " (" ++ savedPercent savedBytes (totalOriginalSize l)
                             ++ "%)"))
              (add_downloads (started l) w)))
  | Thrown error l =>
      Settled
        (update (setLoading false)
           (update (setMessage ("压缩失败: " ++ error_message error))
              (add_downloads (started l) w)))
  | Suspended uncaught l =>
      Pending (add_downloads (started l) w) uncaught
  end.

End Handlers.

(** ** More of the two programs *)

(** *** Strings *)

Module Text.

(** [s.includes(sub)]: [sub] occurs somewhere in [s]. *)
Fixpoint includes (sub s : string) : bool :=
  String.prefix sub s
  || match s with
     | EmptyString => false
     | String _ s' => includes sub s'
     end.

(** No occurrence of [sep] in [pre ++ rest] starts inside [pre]. *)
Fixpoint starts_after (sep pre rest : string) : bool :=
  match pre with
  | EmptyString => true
  | String c pre' =>
      negb (String.prefix sep (pre ++ rest)) && starts_after sep pre' rest
  end.

(** [s] ends with [suffix]. *)
Fixpoint endsWith (suffix s : string) : bool :=
  String.eqb suffix s
  || match s with
     | EmptyString => false
     | String _ s' => endsWith suffix s'
     end.

(** The letters [A]-[Z] to lower case, every other character as it is. *)
Definition lower_ascii (c : ascii) : ascii :=
  let n := N_of_ascii c in
  if ((65 <=? n) && (n <=? 90))%N then ascii_of_N (n + 32) else c.

Fixpoint lower (s : string) : string :=
  match s with
  | EmptyString => EmptyString
  | String c s' => String (lower_ascii c) (lower s')
  end.

End Text.

(** *** What the component renders, and the inline handlers of the JSX *)

(** [setSelectedFiles(prev => f(prev))] *)
Definition updateSelectedFiles (f : list Z -> list Z) (st : State) : State :=
  mkState (activeTab st) (files st) (f (selectedFiles st)) (loading st)
    (message st) (quality st).

Definition setActiveTab (tab : string) (st : State) : State :=
  mkState tab (files st) (selectedFiles st) (loading st) (message st)
    (quality st).

Definition setQuality (q : Z) (st : State) : State :=
  mkState (activeTab st) (files st) (selectedFiles st) (loading st)
    (message st) q.

(** The [onChange] of a record's checkbox (lines 342-348); [checked] is
    [e.target.checked]. *)
Definition toggle (file : FileItem.t) (checked : bool) (st : State) : State :=
  if checked
  then updateSelectedFiles (fun prev => (prev ++ [FileItem.id file])%list) st
  else updateSelectedFiles
         (fun prev => filter (fun id => id <> FileItem.id file) prev) st.

(** The checkbox shows [selectedFiles.includes(file.id)] (line 341). *)
Definition checked (st : State) (file : FileItem.t) : bool :=
  includes (selectedFiles st) (FileItem.id file).

(** The extensions of [/\.(pdf|doc|docx|txt|md)$/i]. *)
Definition document_extensions : list string :=
  ["pdf"; "doc"; "docx"; "txt"; "md"].

(** [f.name.match(/\.(pdf|doc|docx|txt|md)$/i)] as a condition: the name
    ends with a dot and one of the extensions, in any letter case. *)
Definition has_document_extension (name : string) : bool :=
  existsb (fun e => Text.endsWith ("." ++ e) (Text.lower name))
    document_extensions.

(** The filter of the conversion tab (lines 247-250). *)
Definition convertible (f : FileItem.t) : bool :=
  Text.includes "document" (FileItem.type f)
  || has_document_extension (FileItem.name f).

(** The lists of the conversion tab and of the compression tab (line 409). *)
Definition documents (st : State) : list FileItem.t :=
  filter convertible (files st).
Definition images (st : State) : list FileItem.t :=
  filter is_image (files st).

(** The values of the format [select] (lines 236-239). *)
Definition formats : list string := ["pdf"; "docx"; "txt"; "md"].

Definition tabs : list string := ["convert"; "manage"; "compress"].

Definition operations : list string := ["rename"; "copy"; "move"; "delete"].

(** What the user can do with the page.  The asynchronous handlers are run
    to their end, or to the [await] where they stay; they read and write no
    cell of the state other than [loading], [message] and (read only)
    [quality], so whatever the user does meanwhile commutes with them on
    the other cells. *)
Inductive Action :=
| SelectTab (tab : string)
| ChooseFiles (Date_now : nat -> Z) (uploadedFiles : option (list File.t))
| Check (file : FileItem.t)
| Toolbar (ui : Dialogs) (operation : string)
| MoveSlider (value : Z)
| Dismiss
| Convert (browser : Browser) (file : FileItem.t) (targetFormat : string)
| Compress (browser : Browser) (formatFileSize_nonzero : Z -> string)
    (percent_toFixed : Z -> Z -> string) (file : FileItem.t)
| CompressAll (browser : Browser) (formatFileSize_nonzero : Z -> string)
    (percent_toFixed : Z -> Z -> string).

(** The page offers the action: the control is rendered and not disabled. *)
Definition offered (st : State) (a : Action) : Prop :=
  match a with
  | SelectTab tab => tab ∈ tabs
  | ChooseFiles _ _ => activeTab st ∈ tabs
  | Check file => activeTab st = "manage" /\ file ∈ files st
  | Toolbar _ operation =>
      activeTab st = "manage" /\ selectedFiles st <> [] /\ operation ∈ operations
  | MoveSlider value => activeTab st = "compress" /\ 10 <= value <= 100
  | Dismiss => message st <> ""
  | Convert _ file targetFormat =>
      activeTab st = "convert" /\ file ∈ documents st
      /\ targetFormat ∈ formats /\ loading st = false
  | Compress _ _ _ file =>
      activeTab st = "compress" /\ file ∈ images st /\ loading st = false
  | CompressAll _ _ _ =>
      activeTab st = "compress" /\ (1 < length (images st))%nat
      /\ loading st = false
  end.

Definition after (o : Outcome) : State :=
  match o with
  | Settled w => state w
  | Pending w _ => state w
  end.

(** The state after the action.  A click on a checkbox reports the
    opposite of what the checkbox shows. *)
Definition perform (st : State) (a : Action) : State :=
  match a with
  | SelectTab tab => setActiveTab tab st
  | ChooseFiles Date_now uploadedFiles =>
      handleFileUpload Date_now uploadedFiles st
  | Check file => toggle file (negb (checked st file)) st
  | Toolbar ui operation =>
      handleFileOperation ui operation (selectedFiles st) st
  | MoveSlider value => setQuality value st
  | Dismiss => setMessage "" st
  | Convert browser file targetFormat =>
      after (convertDocument browser file targetFormat (mkWorld st []))
  | Compress browser fmt pct file =>
      after (compressImages browser fmt pct [file] (mkWorld st []))
  | CompressAll browser fmt pct =>
      after (compressImages browser fmt pct (images st) (mkWorld st []))
  end.

(** A session: each action is offered by the state it is performed in. *)
Inductive session : State -> list Action -> State -> Prop :=
| session_nil (st : State) : session st [] st
| session_cons (st : State) (a : Action) (rest : list Action) (st' : State) :
    offered st a -> session (perform st a) rest st' ->
    session st (a :: rest) st'.

(** The page an asynchronous call leaves. *)
Definition world_of (o : Outcome) : World :=
  match o with
  | Settled w => w
  | Pending w _ => w
  end.

(** The name [compressImages] saves an image under (line 114). *)
Definition compressed_name (image : FileItem.t) : string :=
  "compressed-" ++ FileItem.name image.

(** The banner shows the message and its button empties it
    (lines 441-449). *)
Definition dismissible (st : State) : Prop :=
  offered st Dismiss /\ message (perform st Dismiss) = "".

(** What holds of the page throughout a session. *)
Definition page_invariant (st : State) : Prop :=
  (forall x, x ∈ selectedFiles st -> x ∈ ids st)
  /\ NoDup (selectedFiles st)
  /\ activeTab st ∈ tabs
  /\ 10 <= quality st <= 100.

(** The cells the asynchronous handlers do not write. *)
Definition same_cells (st st' : State) : Prop :=
  files st' = files st
  /\ selectedFiles st' = selectedFiles st
  /\ activeTab st' = activeTab st
  /\ quality st' = quality st.


(** ** Sample inputs *)

Module Samples.

(** A runtime whose decoder and parser succeed with fixed parts. *)
Definition decoder (body : option string) : res (list byte) :=
  match body with
  | Some s => Ok (default [] (Base64.decode s))
  | None => Throw (mkError "TypeError" "The first argument must be of type string")
  end.

Definition parser (parts : list Part.t) (buf : list byte)
    (boundary : option string) : res (list Part.t) :=
  Ok parts.

Definition post : Event.t :=
  Event.mk "POST"
    {[ "content-type" := "multipart/form-data; boundary=----form" ]}
    (Some "").

Definition file_part : Part.t :=
  Part.mk "file" (list_byte_of_string "%PDF-1.4") (Some "report.pdf")
    (Some "application/pdf").

Definition format_part (format : string) : Part.t :=
  Part.mk "targetFormat" (list_byte_of_string format) None None.

(** Uploaded files and a list of two records. *)
Definition photo : File.t :=
  File.mk "photo.png" "image/png" (list_byte_of_string "PNG....").
Definition notes : File.t :=
  File.mk "notes.txt" "text/plain" (list_byte_of_string "to do").
Definition readme : File.t :=
  File.mk "README" "" (list_byte_of_string "read me").

(** A clock that reads [t] at every call. *)
Definition at_time (t : Z) : nat -> Z := fun _ => t.

Definition photo_item : FileItem.t :=
  FileItem.mk 1700000000000 "photo.png" 7 "image/png" photo "ready".
Definition notes_item : FileItem.t :=
  FileItem.mk 1700000000001 "notes.txt" 5 "text/plain" notes "ready".

Definition two_files : State :=
  mkState "manage" [photo_item; notes_item] [1700000000000] false "" 80.

(** A user who confirms, one who declines, and one who types a prefix. *)
Definition accepting : Dialogs := mkDialogs (fun _ => None) (fun _ => true).
Definition declining : Dialogs := mkDialogs (fun _ => None) (fun _ => false).
Definition typing (answer : string) : Dialogs :=
  mkDialogs (fun _ => Some answer) (fun _ => true).

(** Browsers.  [honest] fetches a two-byte document, decodes every image
    as 4000 by 3000 pixels and encodes it in three bytes; [offline] has no
    network; in [hanging] the request is never answered, and in [stalled]
    the body of the answer never arrives. *)
Definition document : Blob.t :=
  Blob.mk "application/octet-stream" (list_byte_of_string "ok").
Definition jpeg : Blob.t := Blob.mk "image/jpeg" (list_byte_of_string "jpg").

Definition honest : Browser :=
  mkBrowser
    (fun _ => Settles (Ok (Http.mkResponse true (Settles (Ok document)))))
    "Image is not a constructor"
    (fun _ => Ok tt) true (fun _ => Loaded 4000 3000) (fun _ => Ok tt)
    (fun _ _ _ _ => Ok (Some jpeg)).

Definition with_fetch (fetch : Http.request -> Awaited Http.response)
  : Browser :=
  mkBrowser fetch (not_a_constructor honest) (createObjectURL honest) true
    (image_load honest) (drawImage honest) (toBlob honest).

Definition network_error : Error := mkError "TypeError" "Failed to fetch".

Definition offline : Browser :=
  with_fetch (fun _ => Settles (Throw network_error)).
Definition hanging : Browser := with_fetch (fun _ => Never).
Definition stalled : Browser :=
  with_fetch (fun _ => Settles (Ok (Http.mkResponse true Never))).

(** A page showing the two records, and stand-ins for the engine's number
    formatting. *)
Definition page : World := mkWorld two_files [].
Definition bytes_text (bytes : Z) : string := JS.show bytes ++ " Bytes".
Definition percent_text (savedBytes totalOriginalSize : Z) : string :=
  JS.show (100 * savedBytes / totalOriginalSize).

(** A request without headers, and a parser that always throws. *)
Definition bare_post : Event.t := Event.mk "POST" ∅ (Some "").

Definition parse_error : Error := mkError "Error" "Boundary not found".

Definition failing_parser (buf : list byte) (boundary : option string)
  : res (list Part.t) :=
  Throw parse_error.

Definition post_without_boundary : Event.t :=
  Event.mk "POST" {[ "content-type" := "text/plain" ]} (Some "").

(** A record as an upload of [readme] at the given time makes it. *)
Definition readme_item (t : Z) : FileItem.t :=
  FileItem.mk t "README" 7 "" readme "ready".

(** A visit: two files are chosen, the first is checked on the management
    tab and deleted. *)
Definition visit : list Action :=
  [ChooseFiles (at_time 1700000000000) (Some [photo; notes]);
   SelectTab "manage";
   Check photo_item;
   Toolbar accepting "delete"].

(** Two files are chosen and the conversion of the second is asked of a
    server that never answers; the page this leaves, and what the user tries
    next. *)
Definition hang : list Action :=
  [ChooseFiles (at_time 1700000000000) (Some [photo; notes]);
   Convert hanging notes_item "pdf"].

Definition stuck : State := fold_left perform hang initial.

Definition attempts : list Action :=
  [SelectTab "manage"; Check notes_item; Toolbar (typing "holiday") "rename";
   SelectTab "compress"; MoveSlider 50; SelectTab "convert"].

End Samples.

(** ** The kernel's binary64 numbers

    Rocq's primitive floats are IEEE 754 binary64 numbers, computed by the
    processor: [on_floats] runs lines 96-100 on them, to compare with
    [scaled]. *)

Module Hardware.

Definition of_Z (z : Z) : PrimFloat.float :=
  PrimFloat.of_uint63 (Uint63.of_Z z).

(** [Math.min] of two numbers, neither of them [NaN]. *)
Definition min (a b : PrimFloat.float) : PrimFloat.float :=
  if PrimFloat.leb a b then a else b.

Definition on_floats (width height : Z) : PrimFloat.float * PrimFloat.float :=
  let w := of_Z width in
  let h := of_Z height in
  if (maxSize <? width) || (maxSize <? height) then
    let ratio := min (PrimFloat.div (of_Z maxSize) w)
                     (PrimFloat.div (of_Z maxSize) h) in
    (PrimFloat.mul w ratio, PrimFloat.mul h ratio)
  else (w, h).

(** The value of a float, as [Binary64] represents it. *)
Definition value (f : PrimFloat.float) : Binary64.t :=
  match FloatOps.Prim2SF f with
  | SpecFloat.S754_zero _ => Binary64.Finite 0
  | SpecFloat.S754_finite false m e =>
      Binary64.Finite (Qred (inject_Z (Zpos m) * 2 ^ e))
  | SpecFloat.S754_infinity false => Binary64.PosInf
  | _ => Binary64.NaN
  end.

Definition same (a : Binary64.t) (f : PrimFloat.float) : bool :=
  match a, value f with
  | Binary64.Finite x, Binary64.Finite y => Qeq_bool x y
  | Binary64.PosInf, Binary64.PosInf => true
  | Binary64.NaN, Binary64.NaN => true
  | _, _ => false
  end.

(** [scaled] and the processor agree on an image of the given size. *)
Definition agree (size : Z * Z) : bool :=
  let '(width, height) := size in
  same (fst (scaled width height)) (fst (on_floats width height))
  && same (snd (scaled width height)) (snd (on_floats width height)).

(** Widths from [from] on, each with a few heights. *)
Definition sizes (from : Z) (n : nat) : list (Z * Z) :=
  w ← (fun k => from + Z.of_nat k) <$> seq 0 n;
  [(w, 1); (w, 1080); (w, w); (w, 2 * w + 1); (1, w); (1333, w)].

End Hardware.

(** ** Tactics *)

(** Linear arithmetic with division and remainder by constants. *)
Ltac arith := zify; Z.to_euclidean_division_equations; lia.

(** Whether the page offers an action, at a concrete state. *)
Ltac offer :=
  cbn; repeat split; try reflexivity; try discriminate; try lia;
  repeat constructor.

(** * Properties *)

(** ** Base64 round trip *)

Module Base64Facts.
Import Base64.

Lemma sextet_of_char_of_sextet (n : N) :
  (n < 64)%N -> sextet_of_char (char_of_sextet n) = Some n.
Proof.
  intros Hn.
  assert (Hall : forallb
            (fun k => match sextet_of_char (char_of_sextet (N.of_nat k)) with
                      | Some m => N.eqb m (N.of_nat k)
                      | None => false
                      end) (seq 0 64) = true) by (vm_compute; reflexivity).
  rewrite forallb_forall in Hall.
  specialize (Hall (N.to_nat n)).
  rewrite N2Nat.id in Hall.
  destruct (sextet_of_char (char_of_sextet n)) as [m|].
  - f_equal. apply N.eqb_eq, Hall, in_seq. lia.
  - discriminate Hall. apply in_seq. lia.
Qed.

Lemma padding_is_no_sextet : sextet_of_char "=" = None.
Proof. reflexivity. Qed.

Lemma byte_of_N_eq (n : N) (b : byte) : n = Byte.to_N b -> byte_of_N n = b.
Proof. intros ->. unfold byte_of_N. now rewrite Byte.of_to_N. Qed.

Lemma list_ind3 {A} (P : list A -> Prop) :
  P [] -> (forall a, P [a]) -> (forall a b, P [a; b]) ->
  (forall a b c l, P l -> P (a :: b :: c :: l)) ->
  forall l, P l.
Proof.
  intros H0 H1 H2 H3 l.
  enough (P l /\ (forall a, P (a :: l)) /\ (forall a b, P (a :: b :: l)))
    by tauto.
  induction l as [|x l (IH0 & IH1 & IH2)]; auto.
Qed.

(** Decoding what [toString('base64')] wrote gives the bytes back. *)
Lemma decode_encode (bs : list byte) : decode (encode bs) = Some bs.
Proof.
  induction bs as [|b0|b0 b1|b0 b1 b2 rest IH] using list_ind3.
  - reflexivity.
  - pose proof (Byte.to_N_bounded b0) as B0.
    cbn [encode decode].
    rewrite !sextet_of_char_of_sextet by arith.
    rewrite padding_is_no_sextet. cbn.
    now rewrite (byte_of_N_eq _ b0) by arith.
  - pose proof (Byte.to_N_bounded b0) as B0.
    pose proof (Byte.to_N_bounded b1) as B1.
    cbn [encode decode].
    rewrite !sextet_of_char_of_sextet by arith.
    rewrite padding_is_no_sextet. cbn.
    rewrite (byte_of_N_eq _ b0) by arith.
    now rewrite (byte_of_N_eq _ b1) by arith.
  - pose proof (Byte.to_N_bounded b0) as B0.
    pose proof (Byte.to_N_bounded b1) as B1.
    pose proof (Byte.to_N_bounded b2) as B2.
    cbn [encode decode].
    rewrite !sextet_of_char_of_sextet by arith.
    rewrite IH. cbn.
    rewrite (byte_of_N_eq _ b0) by arith.
    rewrite (byte_of_N_eq _ b1) by arith.
    now rewrite (byte_of_N_eq _ b2) by arith.
Qed.

End Base64Facts.

(** ** The conversion endpoint *)

Section HandlerFacts.

Variable Buffer_from_base64 : option string -> res (list byte).
Variable multipart_parse : list byte -> option string -> res (list Part.t).

Local Abbreviation run_handler :=
  (handler Buffer_from_base64 multipart_parse).
Local Abbreviation run_convert :=
  (convert Buffer_from_base64 multipart_parse).
Local Abbreviation parsed :=
  (parse_request Buffer_from_base64 multipart_parse).

Lemma find_part_Some (n : string) (parts : list Part.t) (p : Part.t) :
  find_part n parts = Some p -> p ∈ parts /\ Part.name p = n.
Proof.
  unfold find_part. intros H. apply find_some in H as [Hin Heq].
  split; [now apply list_elem_of_In | now apply String.eqb_eq].
Qed.

Lemma find_part_None (n : string) (parts : list Part.t) :
  Forall (fun p => Part.name p <> n) parts -> find_part n parts = None.
Proof.
  unfold find_part. induction 1 as [|p parts Hp _ IH]; [reflexivity|].
  cbn. now apply String.eqb_neq in Hp as ->.
Qed.

(** *** [toString] *)

Lemma decode_from_partial (p : Utf8.Partial) (bytes : list N) :
  Utf8.decode_from (Some p) bytes <> [].
Proof.
  revert p. induction bytes as [|b bytes IH]; intros p; cbn; [discriminate|].
  destruct (_ && _); [|discriminate].
  destruct (Utf8.needed p) as [|[|n]]; [discriminate | discriminate | apply IH].
Qed.

Lemma encode_one_nonempty (cp : N) : Utf8.encode_one cp <> [].
Proof. unfold Utf8.encode_one. repeat case_match; discriminate. Qed.

Lemma ascii_of_byte_to_N (b : byte) : ascii_of_N (Byte.to_N b) = ascii_of_byte b.
Proof. destruct b; reflexivity. Qed.

(** A buffer of ASCII bytes is read as it is. *)
Lemma toString_ascii (data : list byte) :
  Forall (fun b => (Byte.to_N b <= 127)%N) data ->
  toString data = string_of_list_byte data.
Proof.
  unfold toString, Utf8.decode.
  induction 1 as [|b data Hb _ IH]; [reflexivity|].
  cbn. unfold Utf8.first. apply N.leb_le in Hb as Hb'. rewrite Hb'.
  cbn. unfold Utf8.encode_one at 1. rewrite Hb'. cbn.
  rewrite ascii_of_byte_to_N. f_equal. exact IH.
Qed.

(** Well-formed characters of two, three and four bytes are read as they
    are; a byte that starts no character, a truncated character, an overlong
    form and a surrogate are read as U+FFFD, once for each ill-formed
    part. *)
Lemma toString_samples :
  let fffd := [xef; xbf; xbd] in
  toString [xc3; xa9] = string_of_list_byte [xc3; xa9]
  /\ toString [xe2; x82; xac] = string_of_list_byte [xe2; x82; xac]
  /\ toString [xf0; x9f; x98; x80] = string_of_list_byte [xf0; x9f; x98; x80]
  /\ toString [xff] = string_of_list_byte fffd
  /\ toString [x70; xff; x64; x66]
     = string_of_list_byte ([x70] ++ fffd ++ [x64; x66])
  /\ toString [xe2; x82] = string_of_list_byte fffd
  /\ toString [xe2; x82; x41] = string_of_list_byte (fffd ++ [x41])
  /\ toString [xc0; x80] = string_of_list_byte (fffd ++ fffd)
  /\ toString [xed; xa0; x80] = string_of_list_byte (fffd ++ fffd ++ fffd).
Proof. vm_compute. repeat split. Qed.

(** Only the empty buffer is read as the empty string. *)
Lemma truthy_toString (data : list byte) :
  JS.truthy (toString data) = true <-> data <> [].
Proof.
  split; [now intros H -> |].
  intros Hdata. destruct data as [|b data]; [done|].
  assert (exists cp cps,
             Utf8.decode (Byte.to_N <$> b :: data) = cp :: cps)
    as (cp & cps & Hdec).
  { unfold Utf8.decode. cbn. destruct (Utf8.first _) as [cp|p]; [eauto|].
    destruct (Utf8.decode_from (Some p) _) as [|cp cps] eqn:E; [|eauto].
    now apply decode_from_partial in E. }
  unfold toString. rewrite Hdec. unfold Utf8.encode. cbn.
  destruct (Utf8.encode_one cp) as [|n ns] eqn:E; [|reflexivity].
  now apply encode_one_nonempty in E.
Qed.

Lemma handler_post (event : Event.t) (now : Z) :
  Event.httpMethod event = "POST" ->
  run_handler event now =
    match run_convert event now with
    | Ok response => response
    | Throw error => error_response 500 ("转换失败: " ++ error_message error)
    end.
Proof. unfold handler. now intros ->. Qed.


(** C2.  A POST request that was parsed and has no part named [file], or
    no part named [targetFormat], is answered with status 400 and the JSON
    body [{"error": ...}]; the answer has no headers. *)
Theorem handler_missing_part (event : Event.t) (now : Z) (parts : list Part.t) :
  Event.httpMethod event = "POST" ->
  parsed event = Ok parts ->
  Forall (fun p => Part.name p <> "file") parts
  \/ Forall (fun p => Part.name p <> "targetFormat") parts ->
  run_handler event now
  = Response.mk 400 ∅ (JS.json_error "缺少文件或目标格式") false.
Proof.
  intros Hpost Hparse Hmissing.
  rewrite handler_post by assumption.
  unfold convert. rewrite Hparse. cbn [res_bind].
  destruct Hmissing as [H | H]; rewrite (find_part_None _ _ H).
  - reflexivity.
  - now destruct (find_part "file" parts).
Qed.

(** C1, as the code has it.  A POST request that was parsed, with [file]
    its first part named [file] and [format] its first part named
    [targetFormat], the latter with a non-empty value, is answered with
    status 200, the bytes of [file] (sent as Base64 and flagged so), the
    content type [application/octet-stream] and the file name
    [converted-<clock reading>.<target format>]. *)
Theorem handler_echoes_file (event : Event.t) (now : Z)
    (parts : list Part.t) (file format : Part.t) :
  Event.httpMethod event = "POST" ->
  parsed event = Ok parts ->
  find_part "file" parts = Some file ->
  find_part "targetFormat" parts = Some format ->
  toString (Part.data format) <> "" ->
  let response := run_handler event now in
  Response.statusCode response = 200
  /\ Response.body response = Base64.encode (Part.data file)
  /\ Response.isBase64Encoded response = true
  /\ Response.bytes response = Some (Part.data file)
  /\ Response.headers response !! "Content-Type"
     = Some "application/octet-stream"
  /\ Response.headers response !! "Content-Disposition"
     = Some ("attachment; filename=" ++ JS.dquote
               ++ ("converted-" ++ JS.show now ++ "."
                     ++ toString (Part.data format))
               ++ JS.dquote).
Proof.
  intros Hpost Hparse Hfile Hformat Hnonempty response. subst response.
  rewrite handler_post by assumption.
  unfold convert. rewrite Hparse. cbn [res_bind].
  rewrite Hfile, Hformat. cbn [option_map].
  assert (JS.truthy (toString (Part.data format)) = true) as ->.
  { unfold JS.truthy. apply negb_true_iff, String.eqb_neq, Hnonempty. }
  unfold Response.bytes. cbn.
  rewrite Base64Facts.decode_encode.
  repeat split.
Qed.

End HandlerFacts.

(** C2 at a request that carries a target format and no file. *)
Lemma handler_missing_part_witness :
  handler Samples.decoder (Samples.parser [Samples.format_part "docx"])
    Samples.post 1700000000000
  = Response.mk 400 ∅ (JS.json_error "缺少文件或目标格式") false.
Proof.
  apply (handler_missing_part Samples.decoder
           (Samples.parser [Samples.format_part "docx"])
           Samples.post 1700000000000 [Samples.format_part "docx"]).
  - reflexivity.
  - reflexivity.
  - left. repeat constructor. discriminate.
Defined.

(** C1 as stated fails at a request whose [targetFormat] part is empty:
    both parts are there, and the answer is the 400 of a missing part. *)
Lemma handler_empty_targetFormat :
  let parts := [Samples.file_part; Samples.format_part ""] in
  let response :=
    handler Samples.decoder (Samples.parser parts) Samples.post 1700000000000 in
  Event.httpMethod Samples.post = "POST"
  /\ parse_request Samples.decoder (Samples.parser parts) Samples.post = Ok parts
  /\ Exists (fun p => Part.name p = "file") parts
  /\ Exists (fun p => Part.name p = "targetFormat") parts
  /\ response = Response.mk 400 ∅ (JS.json_error "缺少文件或目标格式") false
  /\ Response.statusCode response <> 200.
Proof.
  repeat split.
  - apply Exists_cons_hd. reflexivity.
  - apply Exists_cons_tl, Exists_cons_hd. reflexivity.
  - discriminate.
Qed.

(** The amended C1 at a request for a [docx]. *)
Lemma handler_echoes_file_witness :
  let response :=
    handler Samples.decoder
      (Samples.parser [Samples.file_part; Samples.format_part "docx"])
      Samples.post 1700000000000 in
  Response.statusCode response = 200
  /\ Response.body response = Base64.encode (Part.data Samples.file_part)
  /\ Response.isBase64Encoded response = true
  /\ Response.bytes response = Some (Part.data Samples.file_part)
  /\ Response.headers response !! "Content-Type"
     = Some "application/octet-stream"
  /\ Response.headers response !! "Content-Disposition"
     = Some ("attachment; filename=" ++ JS.dquote
               ++ ("converted-" ++ JS.show 1700000000000 ++ "."
                     ++ toString (Part.data (Samples.format_part "docx")))
               ++ JS.dquote).
Proof.
  apply (handler_echoes_file Samples.decoder
           (Samples.parser [Samples.file_part; Samples.format_part "docx"])
           Samples.post 1700000000000
           [Samples.file_part; Samples.format_part "docx"]
           Samples.file_part (Samples.format_part "docx")).
  - reflexivity.
  - reflexivity.
  - reflexivity.
  - reflexivity.
  - intros H. vm_compute in H. discriminate H.
Defined.

(** ** The file list *)

(** *** Upload *)

Lemma Forall2_imap {A B} (R : A -> B -> Prop) (f : nat -> A -> B) (l : list A) :
  (forall i x, l !! i = Some x -> R x (f i x)) -> Forall2 R l (imap f l).
Proof.
  revert f. induction l as [|x l IH]; intros f H; cbn.
  - constructor.
  - constructor.
    + apply (H 0%nat). reflexivity.
    + apply IH. intros i y Hy. apply (H (S i)). exact Hy.
Qed.

Lemma newFiles_made_from (Date_now : nat -> Z) (uploadedFiles : list File.t) :
  Forall2 made_from uploadedFiles (newFiles Date_now uploadedFiles).
Proof. apply Forall2_imap. intros i file _. now repeat split. Qed.

Lemma newFiles_ids (Date_now : nat -> Z) (uploadedFiles : list File.t) (i : nat)
    (r : FileItem.t) :
  newFiles Date_now uploadedFiles !! i = Some r ->
  FileItem.id r = Date_now i + Z.of_nat i.
Proof.
  unfold newFiles. rewrite list_lookup_imap.
  destruct (uploadedFiles !! i); cbn; [|discriminate].
  now intros [= <-].
Qed.

(** C6.  Uploading a list of N files appends N records to the list, one for
    each file and in the order of the files; each carries the name, the byte
    size, the MIME type and the payload of its file and the status [ready].
    The records that were in the list stay, unchanged, before the new ones,
    and no other cell of the state changes. *)
Theorem handleFileUpload_appends (Date_now : nat -> Z)
    (uploadedFiles : list File.t) (st : State) :
  exists new : list FileItem.t,
    handleFileUpload Date_now (Some uploadedFiles) st
    = mkState (activeTab st) (files st ++ new) (selectedFiles st)
        (loading st) (message st) (quality st)
    /\ length new = length uploadedFiles
    /\ Forall2 made_from uploadedFiles new.
Proof.
  exists (newFiles Date_now uploadedFiles). split; [reflexivity|].
  split; [apply length_imap | apply newFiles_made_from].
Qed.

(** A [null] file list leaves the state as it is. *)
Lemma handleFileUpload_null (Date_now : nat -> Z) (st : State) :
  handleFileUpload Date_now None st = st.
Proof. reflexivity. Qed.

(** *** Delete *)

Lemma includes_spec (fileIds : list Z) (x : Z) :
  includes fileIds x = true <-> x ∈ fileIds.
Proof. unfold includes. apply bool_decide_eq_true. Qed.

Lemma not_includes_spec (fileIds : list Z) (x : Z) :
  Is_true (negb (includes fileIds x)) <-> x ∉ fileIds.
Proof.
  rewrite negb_True, Is_true_true. now rewrite includes_spec.
Qed.

Lemma handleFileOperation_delete (ui : Dialogs) (fileIds : list Z) (st : State) :
  files (handleFileOperation ui "delete" fileIds st)
  = if confirm ui (delete_question fileIds)
    then filter (fun f => FileItem.id f ∉ fileIds) (files st)
    else files st.
Proof.
  unfold handleFileOperation. cbn.
  destruct (confirm ui (delete_question fileIds)); cbn; [|reflexivity].
  apply list_filter_iff. intros f. apply not_includes_spec.
Qed.

(** C4, as the code has it.  Once the user has confirmed the question, the
    list is the old list without the records whose id is selected: the
    records that stay are those whose id is not selected, unchanged and in
    their order. *)
Theorem delete_removes_selected (ui : Dialogs) (fileIds : list Z) (st : State) :
  confirm ui (delete_question fileIds) = true ->
  let st' := handleFileOperation ui "delete" fileIds st in
  files st' = filter (fun f => FileItem.id f ∉ fileIds) (files st)
  /\ (forall f, f ∈ files st' <-> f ∈ files st /\ FileItem.id f ∉ fileIds)
  /\ sublist (files st') (files st).
Proof.
  intros Hyes st'. subst st'.
  rewrite handleFileOperation_delete, Hyes.
  split; [reflexivity|]. split.
  - intros f. rewrite list_elem_of_filter. tauto.
  - apply sublist_filter.
Qed.

(** When the user declines, nothing is removed. *)
Lemma delete_declined (ui : Dialogs) (fileIds : list Z) (st : State) :
  confirm ui (delete_question fileIds) = false ->
  files (handleFileOperation ui "delete" fileIds st) = files st.
Proof. intros Hno. now rewrite handleFileOperation_delete, Hno. Qed.

(** C4 as stated fails when the user declines the question: the selected
    record is still in the list. *)
Lemma delete_declined_keeps_selected :
  let st' :=
    handleFileOperation Samples.declining "delete" [1700000000000]
      Samples.two_files in
  FileItem.id Samples.photo_item ∈ [1700000000000]
  /\ Samples.photo_item ∈ files st'.
Proof. split; [apply list_elem_of_here | apply list_elem_of_here]. Qed.

(** The amended C4 on a list of two records, the first one selected. *)
Lemma delete_removes_selected_witness :
  let st' :=
    handleFileOperation Samples.accepting "delete" [1700000000000]
      Samples.two_files in
  files st'
  = filter (fun f => FileItem.id f ∉ [1700000000000]) (files Samples.two_files)
  /\ (forall f, f ∈ files st'
                <-> f ∈ files Samples.two_files
                    /\ FileItem.id f ∉ [1700000000000])
  /\ sublist (files st') (files Samples.two_files).
Proof.
  apply (delete_removes_selected Samples.accepting [1700000000000]
           Samples.two_files).
  reflexivity.
Defined.

(** *** Copy and move *)

(** C8.  [copy] and [move] leave the list of files as it is: no record is
    added, removed or modified.  They empty the selection and set the
    message ([move] only when a folder name was entered); the other cells of
    the state keep their values. *)
Theorem copy_move_keep_files (ui : Dialogs) (fileIds : list Z) (st : State) :
  handleFileOperation ui "copy" fileIds st
  = mkState (activeTab st) (files st) [] (loading st)
      ("已复制 " ++ count fileIds ++ " 个文件到剪贴板") (quality st)
  /\ handleFileOperation ui "move" fileIds st
     = mkState (activeTab st) (files st) [] (loading st)
         (match prompt ui move_prompt with
          | Some folder =>
              if JS.truthy folder
              then "已将 " ++ count fileIds ++ " 个文件移动到 " ++ folder ++ " 文件夹"
              else message st
          | None => message st
          end)
         (quality st).
Proof.
  split; [reflexivity|].
  unfold handleFileOperation. cbn.
  destruct (prompt ui move_prompt) as [folder|]; [|reflexivity].
  now destruct (JS.truthy folder).
Qed.

(** *** Rename *)

Lemma prefix_dot (c : ascii) (s : string) :
  String.prefix "." (String c s) = Ascii.eqb c ".".
Proof.
  cbn [String.prefix].
  destruct (ascii_dec "." c) as [<-|Hne]; [now destruct s|].
  destruct (Ascii.eqb_spec c "."); [congruence | reflexivity].
Qed.

Lemma split_dot_cons (c : ascii) (s : string) :
  JS.split "." (String c s)
  = if Ascii.eqb c "."
    then EmptyString :: JS.split "." s
    else match JS.split "." s with
         | p :: ps => String c p :: ps
         | [] => [String c EmptyString]
         end.
Proof.
  unfold JS.split. cbn [JS.split_from]. now rewrite prefix_dot.
Qed.

Lemma split_dot_nonempty (s : string) : JS.split "." s <> [].
Proof.
  destruct s as [|c s]; [discriminate|].
  rewrite split_dot_cons.
  destruct (Ascii.eqb c "."); [discriminate|].
  destruct (JS.split "." s); discriminate.
Qed.

Lemma split_dotless (s : string) : dotless s -> JS.split "." s = [s].
Proof.
  unfold dotless. induction s as [|c s IH]; intros H; [reflexivity|].
  cbn [list_ascii_of_string] in H. apply Forall_cons in H as [Hc Hs].
  rewrite split_dot_cons, (IH Hs).
  now apply Ascii.eqb_neq in Hc as ->.
Qed.

Lemma last_cons_nonempty {A} (x d : A) (l : list A) :
  l <> [] -> List.last (x :: l) d = List.last l d.
Proof. destruct l; [congruence | reflexivity]. Qed.

(** The extension of a name without a dot is the name itself. *)
Lemma extension_dotless (name : string) : dotless name -> extension name = name.
Proof. intros H. unfold extension. now rewrite split_dotless. Qed.

Lemma append_nil_l (s : string) : "" ++ s = s.
Proof. reflexivity. Qed.

Lemma append_cons_l (c : ascii) (s t : string) :
  String c s ++ t = String c (s ++ t).
Proof. reflexivity. Qed.

(** A string with a dot is split in two pieces at least. *)
Lemma split_dot_two (stem rest : string) :
  exists p q ps, JS.split "." (stem ++ String "." rest) = p :: q :: ps.
Proof.
  induction stem as [|c stem (p & q & ps & IH)].
  - rewrite append_nil_l, split_dot_cons. cbn.
    destruct (JS.split "." rest) as [|q ps] eqn:E;
      [now apply split_dot_nonempty in E|].
    now exists "", q, ps.
  - rewrite append_cons_l, split_dot_cons, IH.
    destruct (Ascii.eqb c "."); eauto.
Qed.

(** The extension of [stem.ext] is [ext], when [ext] has no dot. *)
Lemma extension_after_last_dot (stem ext : string) :
  dotless ext -> extension (stem ++ "." ++ ext) = ext.
Proof.
  intros Hext. unfold extension, JS.pop.
  change ("." ++ ext) with (String "." ext).
  induction stem as [|c stem IH].
  - rewrite append_nil_l, split_dot_cons. cbn. now rewrite split_dotless.
  - rewrite append_cons_l, split_dot_cons.
    destruct (split_dot_two stem ext) as (p & q & ps & E).
    rewrite E in *.
    destruct (Ascii.eqb c "."); exact IH.
Qed.

Lemma Forall2_map_r {A B} (R : A -> B -> Prop) (g : A -> B) (l : list A) :
  (forall x, R x (g x)) -> Forall2 R l (map g l).
Proof. intros H. induction l; cbn; constructor; auto. Qed.

Lemma Forall2_refl {A} (R : A -> A -> Prop) (l : list A) :
  (forall x, R x x) -> Forall2 R l l.
Proof. intros H. induction l; constructor; auto. Qed.

Lemma handleFileOperation_rename (ui : Dialogs) (fileIds : list Z) (st : State) :
  files (handleFileOperation ui "rename" fileIds st)
  = match prompt ui rename_prompt with
    | Some newName =>
        if JS.truthy newName
        then map (fun f => if includes fileIds (FileItem.id f)
                           then renamed newName f else f) (files st)
        else files st
    | None => files st
    end.
Proof.
  unfold handleFileOperation. cbn.
  destruct (prompt ui rename_prompt) as [newName|]; [|reflexivity].
  now destruct (JS.truthy newName).
Qed.


(** *** Identifiers *)

Lemma ids_handleFileOperation (ui : Dialogs) (operation : string)
    (fileIds : list Z) (st : State) :
  sublist (ids (handleFileOperation ui operation fileIds st)) (ids st).
Proof.
  unfold ids.
  destruct (String.eqb_spec operation "rename") as [->|Hrename].
  { rewrite handleFileOperation_rename.
    destruct (prompt ui rename_prompt) as [newName|]; [|reflexivity].
    destruct (JS.truthy newName); [|reflexivity].
    rewrite map_map.
    erewrite map_ext; [reflexivity|].
    intros f. now destruct (includes fileIds (FileItem.id f)). }
  destruct (String.eqb_spec operation "delete") as [->|Hdelete].
  { rewrite handleFileOperation_delete.
    destruct (confirm ui (delete_question fileIds)); [|reflexivity].
    apply (fmap_sublist FileItem.id), sublist_filter. }
  unfold handleFileOperation.
  apply String.eqb_neq in Hrename as ->. apply String.eqb_neq in Hdelete as ->.
  destruct (String.eqb operation "copy"); [reflexivity|].
  destruct (String.eqb operation "move"); [|reflexivity].
  destruct (prompt ui move_prompt) as [folder|]; [|reflexivity].
  now destruct (JS.truthy folder).
Qed.

(** X12.  Rename, delete, copy and move keep the identifiers distinct. *)
Lemma handleFileOperation_NoDup (ui : Dialogs) (operation : string)
    (fileIds : list Z) (st : State) :
  NoDup (ids st) -> NoDup (ids (handleFileOperation ui operation fileIds st)).
Proof.
  intros H.
  exact (sublist_NoDup _ _ H (ids_handleFileOperation ui operation fileIds st)).
Qed.

(** X11.  An upload keeps the identifiers distinct when the clock does not
    run backwards during the upload and has passed every identifier of the
    list. *)
Lemma handleFileUpload_NoDup (Date_now : nat -> Z)
    (uploadedFiles : option (list File.t)) (st : State) :
  (forall i j, (i <= j)%nat -> Date_now i <= Date_now j) ->
  (forall x, x ∈ ids st -> x < Date_now 0%nat) ->
  NoDup (ids st) -> NoDup (ids (handleFileUpload Date_now uploadedFiles st)).
Proof.
  intros Hmono Hfresh Hnodup.
  destruct uploadedFiles as [uploadedFiles|]; [|exact Hnodup].
  unfold ids. cbn. rewrite map_app. apply NoDup_app. split; [exact Hnodup|].
  assert (Hnew : forall i x,
             map FileItem.id (newFiles Date_now uploadedFiles) !! i = Some x ->
             x = Date_now i + Z.of_nat i).
  { intros i x. change (map FileItem.id ?l) with (FileItem.id <$> l).
    rewrite list_lookup_fmap.
    destruct (newFiles Date_now uploadedFiles !! i) as [r|] eqn:E; [|discriminate].
    intros [= <-]. now apply newFiles_ids in E. }
  split.
  - intros x Hold Hin. apply list_elem_of_lookup in Hin as [i Hi].
    apply Hnew in Hi. specialize (Hfresh x Hold).
    specialize (Hmono 0%nat i). lia.
  - apply NoDup_alt. intros i j x Hi Hj.
    apply Hnew in Hi, Hj.
    destruct (Nat.lt_trichotomy i j) as [Hlt|[Heq|Hgt]]; [|exact Heq|].
    + specialize (Hmono i j). lia.
    + specialize (Hmono j i). lia.
Qed.

(** C3 fails on the code: three files uploaded in the same millisecond get
    the identifiers [t], [t+1], [t+2], and a file uploaded two milliseconds
    later gets [t+2] again. *)
Lemma upload_reuses_id :
  let ops :=
    [Upload (Samples.at_time 1700000000000)
       (Some [Samples.photo; Samples.notes; Samples.readme]);
     Upload (Samples.at_time 1700000000002) (Some [Samples.photo])] in
  ids (run ops initial)
  = [1700000000000; 1700000000001; 1700000000002; 1700000000002]
  /\ ~ NoDup (ids (run ops initial)).
Proof.
  split; [reflexivity|].
  intros H. change (NoDup [1700000000000; 1700000000001; 1700000000002;
                           1700000000002]) in H.
  do 2 apply NoDup_cons in H as [_ H].
  apply NoDup_cons in H as [H _]. apply H, list_elem_of_here.
Qed.

(** ** The size of the canvas

    What the arithmetic of lines 93-103 comes to.  The handler that holds
    these lines is installed after line 88, which throws: the lemmas of this
    part say what the lines compute, not what a call of [compressImages]
    does. *)

Section Rounding.

Import Binary64.
Local Open Scope Q_scope.

(** [rne y] is an integer nearest to [y]. *)
Lemma rne_bounds (y : Q) :
  0 <= y ->
  (0 <= rne y)%Z
  /\ inject_Z (rne y) <= y + (1 # 2)
  /\ y - (1 # 2) <= inject_Z (rne y).
Proof.
  intros Hy. unfold rne.
  pose proof (Qfloor_le y) as Hlo.
  pose proof (Qlt_floor y) as Hhi.
  assert (Hf : (0 <= Qfloor y)%Z).
  { change 0%Z with (Qfloor 0). now apply Qfloor_resp_le. }
  rewrite inject_Z_plus in Hhi. change (inject_Z 1) with 1 in Hhi.
  destruct (Qcompare_spec (y - inject_Z (Qfloor y)) (1 # 2)) as [E|L|G].
  - destruct (Z.even (Qfloor y)); repeat split; try lia; try lra;
      rewrite inject_Z_plus; change (inject_Z 1) with 1; lra.
  - repeat split; [lia | lra | lra].
  - repeat split; [lia | |]; rewrite inject_Z_plus;
      change (inject_Z 1) with 1; lra.
Qed.

Lemma pow2_pos (e : Z) : 0 < 2 ^ e.
Proof. apply Qpower_0_lt. reflexivity. Qed.

Lemma inject_Z_pos (n : Z) : (0 < n)%Z -> 0 < inject_Z n.
Proof. intros H. change 0 with (inject_Z 0). now rewrite <- Zlt_Qlt. Qed.

(** [ilog2 x] is not above the binary logarithm of [x]. *)
Lemma ilog2_le (x : Q) : 0 < x -> 2 ^ ilog2 x <= x.
Proof.
  intros Hx. unfold ilog2.
  set (n := Qnum x). set (d := Zpos (Qden x)).
  destruct (Qle_bool (2 ^ (Z.log2 n - Z.log2 d)) x) eqn:E.
  - now apply Qle_bool_iff.
  - clear E.
    assert (Hn : (0 < n)%Z).
    { unfold n. destruct x as [xn xd]. unfold Qlt in Hx. cbn in *. lia. }
    assert (Hd : (0 < d)%Z) by (unfold d; lia).
    pose proof (Z.log2_spec n Hn) as [Hn1 _].
    pose proof (Z.log2_spec d Hd) as [_ Hd2].
    pose proof (Z.log2_nonneg n) as Hln.
    pose proof (Z.log2_nonneg d) as Hld.
    replace (Z.log2 n - Z.log2 d - 1)%Z
      with (Z.log2 n - Z.succ (Z.log2 d))%Z by lia.
    rewrite Qpower_minus by discriminate.
    change 2 with (inject_Z 2).
    rewrite <- !Zpower_Qpower by lia.
    assert (Hx' : x == inject_Z n / inject_Z d).
    { destruct x as [xn xd]. apply Qmake_Qdiv. }
    rewrite Hx'.
    pose proof (inject_Z_pos d Hd) as Hd'.
    assert (Hp : 0 < inject_Z (2 ^ Z.succ (Z.log2 d))) by (apply inject_Z_pos; lia).
    apply Qle_shift_div_l; [exact Hd'|].
    unfold Qdiv. rewrite <- Qmult_assoc, (Qmult_comm (/ _)), Qmult_assoc.
    apply Qle_shift_div_r; [exact Hp|].
    rewrite <- !inject_Z_mult, <- Zle_Qle. nia.
Qed.

(** ... and [ilog2 x + 1] is above it: [ilog2 x] is the exponent of the
    binade of [x]. *)
Lemma ilog2_lt (x : Q) : 0 < x -> x < 2 ^ (ilog2 x + 1).
Proof.
  intros Hx. unfold ilog2.
  set (n := Qnum x). set (d := Zpos (Qden x)).
  destruct (Qle_bool (2 ^ (Z.log2 n - Z.log2 d)) x) eqn:E.
  - clear E.
    assert (Hn : (0 < n)%Z).
    { unfold n. destruct x as [xn xd]. unfold Qlt in Hx. cbn in *. lia. }
    assert (Hd : (0 < d)%Z) by (unfold d; lia).
    pose proof (Z.log2_spec n Hn) as [_ Hn2].
    pose proof (Z.log2_spec d Hd) as [Hd1 _].
    pose proof (Z.log2_nonneg n) as Hln.
    pose proof (Z.log2_nonneg d) as Hld.
    replace (Z.log2 n - Z.log2 d + 1)%Z
      with (Z.succ (Z.log2 n) - Z.log2 d)%Z by lia.
    rewrite Qpower_minus by discriminate.
    change 2 with (inject_Z 2).
    rewrite <- !Zpower_Qpower by lia.
    assert (Hx' : x == inject_Z n / inject_Z d).
    { destruct x as [xn xd]. apply Qmake_Qdiv. }
    rewrite Hx'.
    pose proof (inject_Z_pos d Hd) as Hd'.
    assert (Hp : 0 < inject_Z (2 ^ Z.log2 d)) by (apply inject_Z_pos; lia).
    apply Qlt_shift_div_r; [exact Hd'|].
    unfold Qdiv. rewrite <- Qmult_assoc, (Qmult_comm (/ _)), Qmult_assoc.
    apply Qlt_shift_div_l; [exact Hp|].
    rewrite <- !inject_Z_mult, <- Zlt_Qlt. nia.
  - replace (Z.log2 n - Z.log2 d - 1 + 1)%Z with (Z.log2 n - Z.log2 d)%Z by lia.
    destruct (Qlt_le_dec x (2 ^ (Z.log2 n - Z.log2 d))) as [H|H]; [exact H|].
    apply Qle_bool_iff in H. congruence.
Qed.

Lemma tiny_small : 0 < tiny /\ tiny <= 1 # 1152921504606846976.
Proof.
  split; [apply pow2_pos|].
  apply Qle_bool_iff. vm_compute. reflexivity.
Qed.

Lemma ulp_pos (x : Q) : 0 < ulp x.
Proof. apply pow2_pos. Qed.

(** Half a unit in the last place: the largest error of one rounding. *)
Lemma half_ulp (x : Q) : 0 < x -> ulp x * (1 # 2) <= x * eps + tiny.
Proof.
  intros Hx. unfold ulp.
  destruct (Z.max_spec (ilog2 x) (-1022)) as [[_ ->]|[_ ->]].
  - assert (2 ^ (-1022 - 52) * (1 # 2) == tiny) as -> by reflexivity.
    assert (0 <= x * eps).
    { apply Qmult_le_0_compat; [lra | discriminate]. }
    lra.
  - replace (ilog2 x - 52)%Z with (ilog2 x + (-52))%Z by lia.
    rewrite Qpower_plus by discriminate.
    pose proof (ilog2_le x Hx) as Hle.
    assert (2 ^ (-52) * (1 # 2) == eps) as E by reflexivity.
    rewrite <- Qmult_assoc, E.
    assert (2 ^ ilog2 x * eps <= x * eps).
    { apply Qmult_le_compat_r; [exact Hle | discriminate]. }
    destruct tiny_small. lra.
Qed.

(** A rounded value is finite, non-negative and above the exact one by the
    rounding error at most. *)
Lemma round_upper (x : Q) :
  0 < x -> x <= 2000 ->
  exists v, round x = Finite v /\ 0 <= v /\ v <= x * (1 + eps) + tiny.
Proof.
  intros Hx Hbig. unfold round.
  destruct (Qle_bool x 0) eqn:E.
  { apply Qle_bool_iff in E. lra. }
  clear E.
  set (v := Qred (inject_Z (rne (x / ulp x)) * ulp x)).
  pose proof (ulp_pos x) as Hu.
  assert (Hq : 0 <= x / ulp x).
  { apply Qle_shift_div_l; [exact Hu | lra]. }
  destruct (rne_bounds _ Hq) as (Hr0 & Hr1 & _).
  assert (Hv : v == inject_Z (rne (x / ulp x)) * ulp x) by apply Qred_correct.
  assert (Hv0 : 0 <= v).
  { rewrite Hv. apply Qmult_le_0_compat; [|lra].
    change 0 with (inject_Z 0). now rewrite <- Zle_Qle. }
  assert (Hv1 : v <= x + ulp x * (1 # 2)).
  { rewrite Hv.
    assert (inject_Z (rne (x / ulp x)) * ulp x <= (x / ulp x + (1 # 2)) * ulp x).
    { apply Qmult_le_compat_r; [exact Hr1 | lra]. }
    assert ((x / ulp x + (1 # 2)) * ulp x == x + ulp x * (1 # 2)).
    { field. lra. }
    lra. }
  pose proof (half_ulp x Hx) as Hh.
  destruct tiny_small as [Ht0 Ht1].
  assert (Hv2 : v <= x * (1 + eps) + tiny) by lra.
  destruct (Qle_bool (2 ^ 1024) v) eqn:E.
  - apply Qle_bool_iff in E.
    assert (2001 < 2 ^ 1024) by (vm_compute; reflexivity).
    unfold eps in *. lra.
  - exists v. auto.
Qed.

(** Rounding moves a number by half a unit in the last place at most, to
    a multiple of that unit. *)
Lemma round_nearest (x v : Q) :
  0 < x -> round x = Finite v ->
  x - ulp x * (1 # 2) <= v <= x + ulp x * (1 # 2)
  /\ exists m : Z, v == inject_Z m * ulp x.
Proof.
  intros Hx. unfold round.
  destruct (Qle_bool x 0) eqn:E.
  { apply Qle_bool_iff in E. lra. }
  clear E.
  set (w := Qred (inject_Z (rne (x / ulp x)) * ulp x)).
  destruct (Qle_bool (2 ^ 1024) w); [discriminate|].
  intros [= <-].
  pose proof (ulp_pos x) as Hu.
  assert (Hq : 0 <= x / ulp x).
  { apply Qle_shift_div_l; [exact Hu | lra]. }
  destruct (rne_bounds _ Hq) as (_ & Hr1 & Hr2).
  assert (Hw : w == inject_Z (rne (x / ulp x)) * ulp x) by apply Qred_correct.
  split; [|now exists (rne (x / ulp x))].
  assert (inject_Z (rne (x / ulp x)) * ulp x <= (x / ulp x + (1 # 2)) * ulp x).
  { apply Qmult_le_compat_r; [exact Hr1 | lra]. }
  assert ((x / ulp x - (1 # 2)) * ulp x <= inject_Z (rne (x / ulp x)) * ulp x).
  { apply Qmult_le_compat_r; [exact Hr2 | lra]. }
  assert ((x / ulp x + (1 # 2)) * ulp x == x + ulp x * (1 # 2)) by (field; lra).
  assert ((x / ulp x - (1 # 2)) * ulp x == x - ulp x * (1 # 2)) by (field; lra).
  lra.
Qed.

Lemma div_bound (n : Z) :
  (0 < n)%Z ->
  exists v, div (of_Z maxSize) (of_Z n) = Finite v
            /\ 0 <= v /\ v <= quotient_bound n.
Proof.
  intros Hn. pose proof (inject_Z_pos n Hn) as Hq.
  unfold div, of_Z, quotient_bound, maxSize.
  destruct (Qeq_bool (inject_Z n) 0) eqn:E.
  { apply Qeq_bool_iff in E. lra. }
  clear E. apply round_upper.
  - apply Qlt_shift_div_l; [exact Hq|]. change (inject_Z 1920) with 1920. lra.
  - apply Qle_shift_div_r; [exact Hq|]. change (inject_Z 1920) with 1920.
    assert (1 <= inject_Z n).
    { change 1 with (inject_Z 1). rewrite <- Zle_Qle. lia. }
    lra.
Qed.

Lemma div_zero : div (of_Z maxSize) (of_Z 0) = PosInf.
Proof. reflexivity. Qed.

Lemma mul_bound (n : Z) (r : Q) :
  (0 <= n < 2 ^ 32)%Z -> 0 <= r ->
  ((0 < n)%Z -> r <= quotient_bound n) ->
  exists v, mul (of_Z n) (Finite r) = Finite v /\ 0 <= v /\ v < 1921.
Proof.
  intros [Hn0 Hn1] Hr Hb. unfold mul, of_Z.
  destruct (Qlt_le_dec 0 (inject_Z n * r)) as [Hx|Hx].
  2:{ exists 0. unfold round. apply Qle_bool_iff in Hx as ->.
      split; [reflexivity|]. split; [apply Qle_refl | reflexivity]. }
  assert (Hn : (0 < n)%Z).
  { destruct (Z.eq_dec n 0%Z) as [->|]; [|lia].
    change (inject_Z 0) with 0 in Hx. lra. }
  pose proof (inject_Z_pos n Hn) as Hq.
  specialize (Hb Hn). unfold quotient_bound, maxSize in Hb.
  change (inject_Z 1920) with 1920 in Hb.
  destruct tiny_small as [Ht0 Ht1].
  assert (Hn32 : inject_Z n <= 4294967296).
  { change 4294967296 with (inject_Z (2 ^ 32)). rewrite <- Zle_Qle. lia. }
  assert (Hprod : inject_Z n * r <= 1920 * (1 + eps) + 4294967296 * tiny).
  { assert (inject_Z n * r
            <= inject_Z n * (1920 / inject_Z n * (1 + eps) + tiny)).
    { rewrite !(Qmult_comm (inject_Z n)).
      apply Qmult_le_compat_r; [exact Hb | lra]. }
    assert (inject_Z n * (1920 / inject_Z n * (1 + eps) + tiny)
            == 1920 * (1 + eps) + inject_Z n * tiny).
    { field. lra. }
    assert (inject_Z n * tiny <= 4294967296 * tiny).
    { apply Qmult_le_compat_r; [exact Hn32 | lra]. }
    lra. }
  destruct (round_upper (inject_Z n * r) Hx) as (v & -> & Hv0 & Hv1).
  { unfold eps in *. lra. }
  exists v. repeat split; [exact Hv0|]. unfold eps in *. lra.
Qed.

End Rounding.

Section CanvasSize.

Import Binary64.
Local Open Scope Q_scope.

(** The ratio is a finite number, and not above the bound on the rounded
    quotient of either non-zero dimension. *)
Lemma ratio_bound (width height : Z) :
  (0 <= width)%Z -> (0 <= height)%Z ->
  (maxSize < width \/ maxSize < height)%Z ->
  exists r,
    min (div (of_Z maxSize) (of_Z width)) (div (of_Z maxSize) (of_Z height))
    = Finite r
    /\ 0 <= r
    /\ ((0 < width)%Z -> r <= quotient_bound width)
    /\ ((0 < height)%Z -> r <= quotient_bound height).
Proof.
  intros Hw Hh Hbig. unfold maxSize in Hbig.
  destruct (Z.eq_dec width 0%Z) as [->|Hw0];
    [|destruct (Z.eq_dec height 0%Z) as [->|Hh0]].
  - destruct (div_bound height) as (b & -> & Hb0 & Hb1); [lia|].
    rewrite div_zero. exists b. cbn. repeat split; [exact Hb0 | lia | auto].
  - destruct (div_bound width) as (a & -> & Ha0 & Ha1); [lia|].
    rewrite div_zero. exists a. cbn. repeat split; [exact Ha0 | auto | lia].
  - destruct (div_bound width) as (a & -> & Ha0 & Ha1); [lia|].
    destruct (div_bound height) as (b & -> & Hb0 & Hb1); [lia|].
    cbn. destruct (Qle_bool a b) eqn:E.
    + apply Qle_bool_iff in E. exists a.
      repeat split; [exact Ha0 | auto | intros _; lra].
    + assert (b <= a).
      { destruct (Qlt_le_dec b a) as [H|H]; [lra|].
        apply Qle_bool_iff in H. congruence. }
      exists b. repeat split; [exact Hb0 | intros _; lra | auto].
Qed.

Lemma to_unsigned_long_bound (v : Q) :
  0 <= v -> v < 1921 -> (0 <= to_unsigned_long (Finite v) <= maxSize)%Z.
Proof.
  intros H0 H1. unfold to_unsigned_long, maxSize.
  assert (0 <= Qfloor v)%Z.
  { change 0%Z with (Qfloor 0). now apply Qfloor_resp_le. }
  assert (Qfloor v < 1921)%Z.
  { rewrite Zlt_Qlt. pose proof (Qfloor_le v).
    change (inject_Z 1921) with 1921. lra. }
  rewrite Z.mod_small; lia.
Qed.

End CanvasSize.

(** [scaled] computes what the processor computes, on 3000 sizes around
    the threshold and 3000 sizes of large images. *)
Example scaled_agrees_with_hardware :
  forallb Hardware.agree (Hardware.sizes 1900 500 ++ Hardware.sizes 7000 500)
  = true.
Proof. vm_compute. reflexivity. Qed.


(** A width of 2094 pixels is scaled to a little more than 1920, which the
    assignment to [canvas.width] truncates; a width of 100000 pixels is
    scaled to a little less, and truncated to 1919; a height of 0 divides
    by zero and the ratio is that of the width. *)
Example canvas_size_samples :
  canvas_size 4000 3000 = (1920, 1440)
  /\ canvas_size 1920 1080 = (1920, 1080)
  /\ fst (scaled 2094 100) = Binary64.Finite (8444249301319681 # 4398046511104)
  /\ canvas_size 2094 100 = (1920, 91)
  /\ canvas_size 3000 0 = (1920, 0)
  /\ canvas_size 100000 1 = (1919, 0).
Proof. vm_compute. repeat split. Qed.

(** ** The asynchronous handlers *)

Section HandlersFacts.

Variable browser : Browser.
Variable formatFileSize_nonzero : Z -> string.
Variable percent_toFixed : Z -> Z -> string.

(** *** [convertDocument] *)

(** The [try] block changes the page only when it runs to its end. *)
Lemma convert_try_throw (file : FileItem.t) (targetFormat : string)
    (w w' : World) (e : Error) :
  convert_try browser file targetFormat w = (Settles (Throw e), w') -> w' = w.
Proof.
  unfold convert_try.
  destruct (fetch browser _) as [[response|]|]; [|now intros [= _ <-]|discriminate].
  destruct (Http.ok response); [|now intros [= _ <-]].
  destruct (Http.blob response) as [[blob|]|];
    [|now intros [= _ <-]|discriminate].
  destruct (createObjectURL browser blob); [discriminate | now intros [= _ <-]].
Qed.

Lemma convert_try_never (file : FileItem.t) (targetFormat : string)
    (w w' : World) :
  convert_try browser file targetFormat w = (Never, w') -> w' = w.
Proof.
  unfold convert_try.
  destruct (fetch browser _) as [[response|]|]; [|discriminate|now intros [= <-]].
  destruct (Http.ok response); [|discriminate].
  destruct (Http.blob response) as [[blob|]|];
    [|discriminate|now intros [= <-]].
  destruct (createObjectURL browser blob); discriminate.
Qed.

(** An error of the [try] block is caught and shown: the call settles,
    [loading] is off again, no download was started and the message is built
    from the error. *)
Lemma convertDocument_catches (file : FileItem.t) (targetFormat : string)
    (w w1 : World) (e : Error) :
  convert_try browser file targetFormat
    (update (setMessage "") (update (setLoading true) w))
  = (Settles (Throw e), w1) ->
  convertDocument browser file targetFormat w
  = Settled
      (mkWorld
         (setLoading false
            (setMessage ("转换失败: " ++ error_message e) (state w)))
         (downloads w)).
Proof.
  intros H. unfold convertDocument. rewrite H.
  apply convert_try_throw in H as ->. reflexivity.
Qed.

(** The call leaves no exception to the global error handler. *)
Lemma convertDocument_escaped (file : FileItem.t) (targetFormat : string)
    (w : World) :
  escaped (convertDocument browser file targetFormat w) = None.
Proof.
  unfold convertDocument.
  now destruct (convert_try browser file targetFormat _) as [[[[]|e]|] w1].
Qed.

(** *** [compressImages] *)

(** The loop on a list and on its image-typed entries. *)
Lemma compress_loop_filter (quality : Z) (images : list FileItem.t) (l : Loop) :
  compress_loop browser quality images l
  = compress_loop browser quality (filter is_image images) l.
Proof.
  revert l. induction images as [|image images IH]; intros l; [reflexivity|].
  rewrite filter_cons. destruct (is_image image) eqn:E.
  - rewrite decide_True by exact I.
    cbn [compress_loop]. fold (is_image image). now rewrite E.
  - rewrite decide_False by exact id.
    cbn [compress_loop]. fold (is_image image). rewrite E. apply IH.
Qed.

(** The loop ends at its first image-typed entry, where line 88 throws;
    the size of that entry has been added to the original total, and
    nothing else has changed. *)
Lemma compress_loop_cases (quality : Z) (images : list FileItem.t) (l : Loop) :
  compress_loop browser quality images l
  = match filter is_image images with
    | [] => Completed l
    | image :: _ =>
        Thrown (no_constructor browser)
          (mkLoop (totalOriginalSize l + FileItem.size image)
             (totalCompressedSize l) (started l))
    end.
Proof.
  rewrite compress_loop_filter.
  destruct (filter is_image images) as [|image rest] eqn:E; [reflexivity|].
  assert (Himage : is_image image = true).
  { assert (image ∈ filter is_image images) as Hin
      by (rewrite E; apply list_elem_of_here).
    apply list_elem_of_filter in Hin as [Hin _]. now destruct (is_image image). }
  cbn [compress_loop]. fold (is_image image). now rewrite Himage.
Qed.

(** What a call of [compressImages] comes to. *)
Lemma compressImages_cases (images : list FileItem.t) (w : World) :
  compressImages browser formatFileSize_nonzero percent_toFixed images w
  = Settled
      (mkWorld
         (setLoading false
            (setMessage
               (match filter is_image images with
                | [] => "压缩完成！节省了 0 Bytes (NaN%)"
                | _ :: _ => "压缩失败: " ++ not_a_constructor browser
                end)
               (state w)))
         (downloads w)).
Proof.
  unfold compressImages. rewrite compress_loop_cases.
  destruct (filter is_image images) as [|image rest];
    cbn; unfold add_downloads; cbn; now rewrite app_nil_r.
Qed.

(** An exception thrown in the loop is caught and shown. *)
Lemma compressImages_catches (images : list FileItem.t) (w : World)
    (e : Error) (l : Loop) :
  compress_loop browser (quality (state w)) images (mkLoop 0 0 []) = Thrown e l ->
  compressImages browser formatFileSize_nonzero percent_toFixed images w
  = Settled
      (mkWorld
         (setLoading false
            (setMessage ("压缩失败: " ++ error_message e) (state w)))
         (downloads w)).
Proof.
  intros H. rewrite compressImages_cases.
  rewrite compress_loop_cases in H.
  destruct (filter is_image images); [discriminate|].
  now injection H as <- _.
Qed.

(** C10.  The entries whose type does not start with [image/] are skipped:
    the loop ends as it ends on the list without them, with the same two
    totals and the same downloads, and so does [compressImages]; with no
    image-typed entry the loop completes with both totals zero and no
    download, and the message reports 0 bytes saved. *)
Theorem compressImages_skips_other_types (images : list FileItem.t)
    (l : Loop) (quality : Z) (w : World) :
  compress_loop browser quality images l
  = compress_loop browser quality (filter is_image images) l
  /\ compressImages browser formatFileSize_nonzero percent_toFixed images w
     = compressImages browser formatFileSize_nonzero percent_toFixed
         (filter is_image images) w
  /\ (filter is_image images = [] ->
      compress_loop browser quality images (mkLoop 0 0 [])
      = Completed (mkLoop 0 0 [])
      /\ compressImages browser formatFileSize_nonzero percent_toFixed images w
         = Settled
             (mkWorld
                (setLoading false
                   (setMessage "压缩完成！节省了 0 Bytes (NaN%)" (state w)))
                (downloads w))).
Proof.
  split; [apply compress_loop_filter|].
  split.
  - unfold compressImages. now rewrite compress_loop_filter.
  - intros Hnone. split.
    + now rewrite compress_loop_filter, Hnone.
    + now rewrite compressImages_cases, Hnone.
Qed.

(** A message of failure is not empty: the banner shows it, with the
    button that empties it. *)
Lemma failure_dismissible (st : State) (failure reason : string) :
  failure <> "" ->
  dismissible (setLoading false (setMessage (failure ++ reason) st)).
Proof.
  intros Hfailure. split; [|reflexivity].
  cbn. destruct failure as [|c failure]; [done | discriminate].
Qed.

(** C7.  An error raised in the [try] block of [convertDocument], or in
    the loop of [compressImages], is caught by the handler: the call
    settles with [loading] off and with the message [转换失败: ] or
    [压缩失败: ] followed by the message of the error, which the banner
    shows with the button that dismisses it.  Neither handler leaves an
    exception uncaught. *)
Theorem errors_are_caught (file : FileItem.t) (targetFormat : string)
    (images : list FileItem.t) (w : World) :
  let started := update (setMessage "") (update (setLoading true) w) in
  let shown text :=
    mkWorld (setLoading false (setMessage text (state w))) (downloads w) in
  (forall e w1,
      convert_try browser file targetFormat started = (Settles (Throw e), w1) ->
      convertDocument browser file targetFormat w
      = Settled (shown ("转换失败: " ++ error_message e))
      /\ dismissible (state (shown ("转换失败: " ++ error_message e))))
  /\ (forall e l,
        compress_loop browser (quality (state w)) images (mkLoop 0 0 [])
        = Thrown e l ->
        compressImages browser formatFileSize_nonzero percent_toFixed images w
        = Settled (shown ("压缩失败: " ++ error_message e))
        /\ dismissible (state (shown ("压缩失败: " ++ error_message e))))
  /\ escaped (convertDocument browser file targetFormat w) = None
  /\ escaped
       (compressImages browser formatFileSize_nonzero percent_toFixed images w)
     = None.
Proof.
  intros started shown. split; [|split; [|split]].
  - intros e w1 Htry. split.
    + now apply convertDocument_catches with w1.
    + now apply failure_dismissible.
  - intros e l Hloop. split.
    + now apply compressImages_catches with l.
    + now apply failure_dismissible.
  - apply convertDocument_escaped.
  - now rewrite compressImages_cases.
Qed.

End HandlersFacts.

(** C7 at a request that fails for want of a network, and at the
    compression of a photograph. *)
Lemma errors_are_caught_witness :
  convertDocument Samples.offline Samples.notes_item "pdf" Samples.page
  = Settled
      (mkWorld
         (mkState "manage" [Samples.photo_item; Samples.notes_item]
            [1700000000000] false "转换失败: Failed to fetch" 80)
         [])
  /\ compressImages Samples.honest Samples.bytes_text Samples.percent_text
       [Samples.photo_item] Samples.page
     = Settled
         (mkWorld
            (mkState "manage" [Samples.photo_item; Samples.notes_item]
               [1700000000000] false "压缩失败: Image is not a constructor" 80)
            []).
Proof.
  pose proof (errors_are_caught Samples.offline Samples.bytes_text
                Samples.percent_text Samples.notes_item "pdf"
                [Samples.photo_item] Samples.page) as (Hconvert & _).
  pose proof (errors_are_caught Samples.honest Samples.bytes_text
                Samples.percent_text Samples.notes_item "pdf"
                [Samples.photo_item] Samples.page) as (_ & Hcompress & _).
  split.
  - edestruct Hconvert as [H _]; [reflexivity | exact H].
  - edestruct Hcompress as [H _]; [reflexivity | exact H].
Defined.

(** C5 fails on the code.  The compression of a photograph, of whatever
    size the browser would find it to be, ends at line 88: the call reports
    the [TypeError], and it has sized no canvas and saved no image. *)
Theorem compressImages_scales_nothing (browser : Browser)
    (formatFileSize_nonzero : Z -> string) (percent_toFixed : Z -> Z -> string) :
  compress_loop browser 80 [Samples.photo_item] (mkLoop 0 0 [])
  = Thrown (mkError "TypeError" (not_a_constructor browser)) (mkLoop 7 0 [])
  /\ compressImages browser formatFileSize_nonzero percent_toFixed
       [Samples.photo_item] Samples.page
     = Settled
         (mkWorld
            (mkState "manage" [Samples.photo_item; Samples.notes_item]
               [1700000000000] false
               ("压缩失败: " ++ not_a_constructor browser) 80)
            []).
Proof. split; reflexivity. Qed.

(** A failed request is reported by [convertDocument]; a request that is
    never answered leaves the call suspended, with [loading] on. *)
Lemma convertDocument_offline :
  convertDocument Samples.offline Samples.notes_item "pdf" Samples.page
  = Settled
      (mkWorld
         (mkState "manage" [Samples.photo_item; Samples.notes_item]
            [1700000000000] false "转换失败: Failed to fetch" 80)
         []).
Proof. reflexivity. Qed.

Lemma convertDocument_hanging :
  convertDocument Samples.hanging Samples.notes_item "pdf" Samples.page
  = Pending
      (mkWorld
         (mkState "manage" [Samples.photo_item; Samples.notes_item]
            [1700000000000] true "" 80)
         [])
      None.
Proof. reflexivity. Qed.

(** So does an answer whose body never arrives. *)
Lemma convertDocument_stalled :
  convertDocument Samples.stalled Samples.notes_item "pdf" Samples.page
  = Pending
      (mkWorld
         (mkState "manage" [Samples.photo_item; Samples.notes_item]
            [1700000000000] true "" 80)
         [])
      None.
Proof. reflexivity. Qed.

(** With no image in the list nothing is compressed, and the message
    divides zero by zero. *)
Lemma compressImages_no_image :
  compressImages Samples.honest Samples.bytes_text Samples.percent_text
    [Samples.notes_item] Samples.page
  = Settled
      (mkWorld
         (mkState "manage" [Samples.photo_item; Samples.notes_item]
            [1700000000000] false "压缩完成！节省了 0 Bytes (NaN%)" 80)
         []).
Proof. reflexivity. Qed.

(** * Further properties *)

(** ** The endpoint: every answer *)

Section HandlerCases.

Variable Buffer_from_base64 : option string -> res (list byte).
Variable multipart_parse : list byte -> option string -> res (list Part.t).

Local Abbreviation answer :=
  (handler Buffer_from_base64 multipart_parse).
Local Abbreviation request_parts :=
  (parse_request Buffer_from_base64 multipart_parse).

(** The four ways the handler answers. *)
Lemma handler_cases (event : Event.t) (now : Z) :
  (Event.httpMethod event <> "POST"
   /\ answer event now = error_response 405 "Method not allowed")
  \/ (Event.httpMethod event = "POST"
      /\ exists e, request_parts event = Throw e
         /\ answer event now
            = error_response 500 ("转换失败: " ++ error_message e))
  \/ (Event.httpMethod event = "POST"
      /\ exists parts, request_parts event = Ok parts
         /\ (find_part "file" parts = None
             \/ find_part "targetFormat" parts = None
             \/ exists format, find_part "targetFormat" parts = Some format
                               /\ Part.data format = [])
         /\ answer event now = error_response 400 "缺少文件或目标格式")
  \/ (Event.httpMethod event = "POST"
      /\ exists parts file format,
           request_parts event = Ok parts
           /\ find_part "file" parts = Some file
           /\ find_part "targetFormat" parts = Some format
           /\ Part.data format <> []
           /\ Response.statusCode (answer event now) = 200).
Proof.
  destruct (String.eqb_spec (Event.httpMethod event) "POST") as [Hpost|Hother].
  2:{ left. split; [exact Hother|]. unfold handler.
      now apply String.eqb_neq in Hother as ->. }
  right. rewrite (handler_post _ _ _ _ Hpost). unfold convert.
  destruct (request_parts event) as [parts|e]; cbn [res_bind].
  2:{ left. split; [exact Hpost|]. now exists e. }
  right.
  destruct (find_part "file" parts) as [file|] eqn:Hfile.
  2:{ left. split; [exact Hpost|]. exists parts. repeat split; auto. }
  destruct (find_part "targetFormat" parts) as [format|] eqn:Hformat.
  2:{ left. split; [exact Hpost|]. exists parts. repeat split; auto. }
  cbn [option_map].
  destruct (JS.truthy (toString (Part.data format))) eqn:Htruthy.
  - right. split; [exact Hpost|]. exists parts, file, format.
    repeat split; auto. now apply truthy_toString.
  - left. split; [exact Hpost|]. exists parts. repeat split; auto.
    right. right. exists format. split; [exact Hformat|].
    destruct (Part.data format) as [|b bs] eqn:E; [reflexivity|].
    assert (JS.truthy (toString (b :: bs)) = true) by now apply truthy_toString.
    congruence.
Qed.

(** X1.  The handler answers 200 exactly to a POST request that parses and
    carries a part named [file] and a part named [targetFormat] whose first
    one is not empty. Every answer has one of the four statuses 200, 400, 405
    and 500, and every answer other than 200 has no headers, is not flagged as
    Base64 and has a JSON body with the one key [error]. *)
Theorem handler_answers (event : Event.t) (now : Z) :
  (Response.statusCode (answer event now) = 200
   <-> Event.httpMethod event = "POST"
       /\ exists parts file format,
            request_parts event = Ok parts
            /\ find_part "file" parts = Some file
            /\ find_part "targetFormat" parts = Some format
            /\ Part.data format <> [])
  /\ Response.statusCode (answer event now) ∈ [200; 400; 405; 500]
  /\ (Response.statusCode (answer event now) <> 200 ->
      exists msg,
        answer event now
        = Response.mk (Response.statusCode (answer event now)) ∅
            (JS.json_error msg) false).
Proof.
  destruct (handler_cases event now)
    as [(Hm & ->)|[(Hm & e & He & ->)|[(Hm & parts & Hp & Hmiss & ->)
       |(Hm & parts & file & format & Hp & Hf & Ht & Hd & H200)]]].
  - split; [|split].
    + split; [discriminate | tauto].
    + cbn. repeat constructor.
    + intros _. now eexists.
  - split; [|split].
    + split; [discriminate|].
      intros (_ & parts & ? & ? & Hp & _). congruence.
    + cbn. repeat constructor.
    + intros _. now eexists.
  - split; [|split].
    + split; [discriminate|].
      intros (_ & parts' & file & format & Hp' & Hf & Ht & Hd).
      assert (parts' = parts) as -> by congruence.
      destruct Hmiss as [H|[H|(format' & H & Hempty)]]; congruence.
    + cbn. repeat constructor.
    + intros _. now eexists.
  - split; [|split].
    + split; [|intros _; exact H200].
      intros _. split; [exact Hm|]. now exists parts, file, format.
    + rewrite H200. apply list_elem_of_here.
    + congruence.
Qed.

(** X2.  A POST request without a [content-type] header is answered 500,
    whatever its body and whatever the decoder and the parser would do. *)
Theorem handler_without_content_type (event : Event.t) (now : Z) :
  Event.httpMethod event = "POST" ->
  Event.headers event !! "content-type" = None ->
  exists msg,
    answer event now = Response.mk 500 ∅ (JS.json_error ("转换失败: " ++ msg)) false.
Proof.
  intros Hpost Hnone. rewrite (handler_post _ _ _ _ Hpost).
  unfold convert, parse_request. rewrite Hnone. cbn. now eexists.
Qed.

(** X3.  An exception of the decoder or of the parser is reported: status 500,
    and the exception's message in the body. *)
Theorem handler_reports_exception (event : Event.t) (now : Z) (ct : string)
    (e : Error) :
  Event.httpMethod event = "POST" ->
  Event.headers event !! "content-type" = Some ct ->
  Buffer_from_base64 (Event.body event) = Throw e
  \/ (exists buf, Buffer_from_base64 (Event.body event) = Ok buf
                  /\ multipart_parse buf (JS.split "boundary=" ct !! 1%nat)
                     = Throw e) ->
  answer event now
  = Response.mk 500 ∅ (JS.json_error ("转换失败: " ++ error_message e)) false.
Proof.
  intros Hpost Hct Hthrow. rewrite (handler_post _ _ _ _ Hpost).
  unfold convert, parse_request. rewrite Hct. cbn [res_bind].
  destruct Hthrow as [-> | (buf & -> & Hparse)]; cbn [res_bind];
    [reflexivity|].
  now rewrite Hparse.
Qed.

End HandlerCases.

(** ** The boundary of the request (line 14) *)

Lemma prefix_refl_app (s t : string) : String.prefix s (s ++ t) = true.
Proof.
  induction s as [|c s IH]; [rewrite append_nil_l; now destruct t|].
  rewrite append_cons_l. cbn [String.prefix].
  destruct (ascii_dec c c); [exact IH | congruence].
Qed.

(** Passing over the rest of an occurrence of the separator. *)
Lemma split_from_skip (sep passed rest : string) :
  JS.split_from sep (String.length passed) (passed ++ rest)
  = JS.split_from sep 0 rest.
Proof.
  induction passed as [|c passed IH]; [reflexivity|].
  rewrite append_cons_l. exact IH.
Qed.

(** The first piece ends where the separator first occurs. *)
Lemma split_at_first (c0 : ascii) (sep' pre rest : string) :
  let sep := String c0 sep' in
  Text.starts_after sep pre (sep ++ rest) = true ->
  JS.split sep (pre ++ sep ++ rest) = pre :: JS.split sep rest.
Proof.
  intros sep. unfold JS.split. induction pre as [|c pre IH]; intros H.
  - rewrite append_nil_l. unfold sep at 2. rewrite append_cons_l.
    cbn [JS.split_from].
    change (String c0 (sep' ++ rest)) with (sep ++ rest).
    rewrite prefix_refl_app. f_equal.
    unfold sep. cbn [String.length]. rewrite Nat.sub_1_r. cbn [Nat.pred].
    apply split_from_skip.
  - cbn [Text.starts_after] in H. apply andb_true_iff in H as [Hc H].
    apply negb_true_iff in Hc.
    rewrite append_cons_l in *. cbn [JS.split_from].
    rewrite Hc, (IH H). reflexivity.
Qed.

(** A string in which the separator does not occur is one piece. *)
Lemma split_without_separator (sep s : string) :
  Text.includes sep s = false -> JS.split sep s = [s].
Proof.
  unfold JS.split. induction s as [|c s IH]; intros H; [reflexivity|].
  cbn [Text.includes] in H. apply orb_false_iff in H as [Hp Hs].
  cbn [JS.split_from]. now rewrite Hp, (IH Hs).
Qed.

Section Boundary.

Variable Buffer_from_base64 : option string -> res (list byte).
Variable multipart_parse : list byte -> option string -> res (list Part.t).

(** X4.  The parser is given what follows [boundary=] in the [content-type]
    header, when [boundary=] occurs there once. *)
Theorem parse_request_boundary (event : Event.t) (pre boundary : string) :
  Event.headers event !! "content-type"
  = Some (pre ++ "boundary=" ++ boundary) ->
  Text.starts_after "boundary=" pre ("boundary=" ++ boundary) = true ->
  Text.includes "boundary=" boundary = false ->
  parse_request Buffer_from_base64 multipart_parse event
  = res_bind (Buffer_from_base64 (Event.body event))
      (fun buf => multipart_parse buf (Some boundary)).
Proof.
  intros Hct Hfirst Hlast. unfold parse_request. rewrite Hct. cbn [res_bind].
  rewrite (split_at_first "b" "oundary=" pre boundary Hfirst).
  now rewrite (split_without_separator _ _ Hlast).
Qed.

(** X5.  With no [boundary=] in the header the parser is given [undefined]. *)
Theorem parse_request_no_boundary (event : Event.t) (ct : string) :
  Event.headers event !! "content-type" = Some ct ->
  Text.includes "boundary=" ct = false ->
  parse_request Buffer_from_base64 multipart_parse event
  = res_bind (Buffer_from_base64 (Event.body event))
      (fun buf => multipart_parse buf None).
Proof.
  intros Hct Hnone. unfold parse_request. rewrite Hct. cbn [res_bind].
  now rewrite (split_without_separator _ _ Hnone).
Qed.

End Boundary.

(** ** The asynchronous handlers: what they leave alone, what they add *)

Section AsyncFrame.

Variable browser : Browser.
Variable formatFileSize_nonzero : Z -> string.
Variable percent_toFixed : Z -> Z -> string.

(** X7.  [compressImages] leaves the list of files, the selection, the tab and
    the quality as they are. It starts one download at most for each
    image-typed entry of its argument, in the order of the entries, each under
    the name [compressed-] followed by the name of the entry. *)
Theorem compressImages_downloads (images : list FileItem.t) (w : World) :
  let w' :=
    world_of (compressImages browser formatFileSize_nonzero percent_toFixed
                images w) in
  files (state w') = files (state w)
  /\ selectedFiles (state w') = selectedFiles (state w)
  /\ activeTab (state w') = activeTab (state w)
  /\ quality (state w') = quality (state w)
  /\ exists new,
       downloads w' = (downloads w ++ new)%list
       /\ sublist (download <$> new)
            (compressed_name <$> filter is_image images).
Proof.
  rewrite compressImages_cases. cbn. repeat split.
  exists []. rewrite app_nil_r. split; [reflexivity | apply sublist_nil_l].
Qed.

(** X8.  A call of [compressImages] with an image-typed entry in its
    argument compresses nothing: it settles with [loading] off, the message
    [压缩失败: ] followed by the message of the [TypeError] of line 88, and no
    download; the rest of the page is as it was. *)
Theorem compressImages_fails_on_images (images : list FileItem.t)
    (image : FileItem.t) (w : World) :
  image ∈ images ->
  is_image image = true ->
  compressImages browser formatFileSize_nonzero percent_toFixed images w
  = Settled
      (mkWorld
         (setLoading false
            (setMessage ("压缩失败: " ++ not_a_constructor browser) (state w)))
         (downloads w)).
Proof.
  intros Hin His. rewrite compressImages_cases.
  destruct (filter is_image images) as [|first rest] eqn:E; [|reflexivity].
  assert (image ∈ filter is_image images) as Hfiltered.
  { apply list_elem_of_filter. split; [now rewrite His | exact Hin]. }
  rewrite E in Hfiltered. now apply elem_of_nil in Hfiltered.
Qed.

End AsyncFrame.

(** The first piece of a name split at its dots: the name up to its first
    dot. *)
Lemma split_dot_first (s : string) :
  exists p ps,
    JS.split "." s = p :: ps
    /\ dotless p
    /\ (s = p \/ exists rest, s = p ++ "." ++ rest).
Proof.
  induction s as [|c s (p & ps & Hsplit & Hp & Hs)].
  - exists "", []. split; [reflexivity|]. split; [constructor | now left].
  - rewrite split_dot_cons, Hsplit.
    destruct (Ascii.eqb_spec c ".") as [->|Hc].
    + exists "", (p :: ps). split; [reflexivity|].
      split; [constructor|]. right. now exists s.
    + exists (String c p), ps. split; [reflexivity|]. split.
      * unfold dotless. cbn [list_ascii_of_string]. now constructor.
      * destruct Hs as [->|(rest & ->)]; [now left|].
        right. now exists rest.
Qed.

Section ConvertFacts.

Variable browser : Browser.

(** X6.  [convertDocument] leaves the list of files, the selection, the tab
    and the quality as they are, and ends in one of three ways.  It stays
    suspended, with [loading] on, an empty message and no download, when the
    request is never answered or the body of an ok answer never arrives.  It
    settles with [loading] off, no download and the message [转换失败: ]
    followed by the message of the error, when the request or the reading
    of the body is rejected, the answer is not ok, or the object URL cannot
    be made.  Otherwise the request was answered with an ok status and a
    body: it settles with [loading] off, saves that body, unchanged, as
    [converted-<stem>.<format>], where the stem is the name of the file up
    to its first dot, and shows the message of success. *)
Theorem convertDocument_outcome (file : FileItem.t) (targetFormat : string)
    (w : World) :
  let request :=
    Http.mkRequest "/api/convert" "POST"
      [("file", Http.FormFile (FileItem.file file));
       ("targetFormat", Http.FormString targetFormat)] in
  let outcome := convertDocument browser file targetFormat w in
  let w' := world_of outcome in
  files (state w') = files (state w)
  /\ selectedFiles (state w') = selectedFiles (state w)
  /\ activeTab (state w') = activeTab (state w)
  /\ quality (state w') = quality (state w)
  /\ ((outcome = Pending w' None
       /\ loading (state w') = true
       /\ message (state w') = ""
       /\ downloads w' = downloads w
       /\ (fetch browser request = Never
           \/ exists response,
                fetch browser request = Settles (Ok response)
                /\ Http.ok response = true
                /\ Http.blob response = Never))
      \/ (outcome = Settled w'
          /\ loading (state w') = false
          /\ downloads w' = downloads w
          /\ exists e,
               message (state w') = "转换失败: " ++ error_message e
               /\ (fetch browser request = Settles (Throw e)
                   \/ exists response,
                        fetch browser request = Settles (Ok response)
                        /\ ((Http.ok response = false
                             /\ e = mkError "Error" "转换失败")
                            \/ (Http.ok response = true
                                /\ (Http.blob response = Settles (Throw e)
                                    \/ exists blob,
                                         Http.blob response = Settles (Ok blob)
                                         /\ createObjectURL browser blob
                                            = Throw e)))))
      \/ (exists response blob stem,
            fetch browser request = Settles (Ok response)
            /\ Http.ok response = true
            /\ Http.blob response = Settles (Ok blob)
            /\ createObjectURL browser blob = Ok tt
            /\ dotless stem
            /\ (FileItem.name file = stem
                \/ exists rest, FileItem.name file = stem ++ "." ++ rest)
            /\ outcome = Settled w'
            /\ loading (state w') = false
            /\ downloads w'
               = (downloads w
                    ++ [mkDownload blob
                          ("converted-" ++ stem ++ "." ++ targetFormat)])%list
            /\ message (state w') = "文档转换成功！")).
Proof.
  intros request outcome w'. subst outcome w'.
  unfold convertDocument, convert_try. fold request.
  destruct (fetch browser request) as [[response|e]|] eqn:Hfetch.
  3:{ cbn. repeat split. left. repeat split. now left. }
  2:{ cbn. repeat split. right. left. repeat split. exists e. split; [reflexivity|].
      now left. }
  destruct (Http.ok response) eqn:Hok.
  2:{ cbn. repeat split. right. left. repeat split.
      exists (mkError "Error" "转换失败"). split; [reflexivity|].
      right. exists response. split; [reflexivity|]. left. now split. }
  destruct (Http.blob response) as [[blob|e]|] eqn:Hblob.
  3:{ cbn. repeat split. left. repeat split. right. now exists response. }
  2:{ cbn. repeat split. right. left. repeat split. exists e. split; [reflexivity|].
      right. exists response. split; [reflexivity|]. right. split; [assumption|].
      now left. }
  destruct (createObjectURL browser blob) as [[]|e] eqn:Hurl.
  2:{ cbn. repeat split. right. left. repeat split. exists e. split; [reflexivity|].
      right. exists response. split; [reflexivity|]. right. split; [assumption|].
      right. now exists blob. }
  destruct (split_dot_first (FileItem.name file)) as (stem & ps & -> & Hstem & Hname).
  cbn. repeat split. right. right. exists response, blob, stem.
  repeat split; auto.
Qed.

End ConvertFacts.

(** ** The file list: more on rename, delete and upload *)

Lemma append_assoc (a b c : string) : (a ++ b) ++ c = a ++ b ++ c.
Proof.
  induction a as [|x a IH]; [reflexivity|].
  now rewrite !append_cons_l, IH.
Qed.

(** Every piece of a name split at its dots is without a dot. *)
Lemma split_dot_pieces (s : string) : Forall dotless (JS.split "." s).
Proof.
  induction s as [|c s IH].
  - repeat constructor.
  - rewrite split_dot_cons.
    destruct (Ascii.eqb_spec c ".") as [->|Hc].
    + constructor; [constructor | exact IH].
    + destruct (JS.split "." s) as [|p ps]; [repeat constructor; exact Hc|].
      apply Forall_cons in IH as [Hp Hps]. constructor; [|exact Hps].
      unfold dotless. cbn [list_ascii_of_string]. now constructor.
Qed.

Lemma extension_is_dotless (name : string) : dotless (extension name).
Proof.
  unfold extension, JS.pop.
  pose proof (split_dot_pieces name) as H.
  pose proof (split_dot_nonempty name) as Hne.
  induction H as [|p ps Hp Hps IH]; [congruence|].
  destruct ps as [|q ps]; [exact Hp|].
  rewrite last_cons_nonempty by discriminate. apply IH. discriminate.
Qed.

Lemma renamed_extension (newName : string) (f : FileItem.t) :
  extension (FileItem.name (renamed newName f)) = extension (FileItem.name f).
Proof.
  unfold renamed. cbn [FileItem.with_name FileItem.name].
  rewrite <- (append_assoc "-"), <- (append_assoc newName).
  apply extension_after_last_dot, extension_is_dotless.
Qed.

Lemma handleFileOperation_cells (ui : Dialogs) (operation : string)
    (fileIds : list Z) (st : State) :
  selectedFiles (handleFileOperation ui operation fileIds st) = []
  /\ activeTab (handleFileOperation ui operation fileIds st) = activeTab st
  /\ loading (handleFileOperation ui operation fileIds st) = loading st
  /\ quality (handleFileOperation ui operation fileIds st) = quality st.
Proof.
  unfold handleFileOperation.
  destruct (String.eqb operation "rename").
  { destruct (prompt ui rename_prompt) as [newName|]; [|now repeat split].
    destruct (JS.truthy newName); now repeat split. }
  destruct (String.eqb operation "delete").
  { destruct (confirm ui (delete_question fileIds)); now repeat split. }
  destruct (String.eqb operation "copy"); [now repeat split|].
  destruct (String.eqb operation "move"); [|now repeat split].
  destruct (prompt ui move_prompt) as [folder|]; [|now repeat split].
  destruct (JS.truthy folder); now repeat split.
Qed.

(** X13.  What [handleFileOperation] does whatever the operation and the
    answers to its dialogs: it empties the selection, keeps the tab, the
    [loading] flag and the quality, and keeps the identifiers of the records,
    in order, except for those a delete removes; it never adds a record. *)
Theorem handleFileOperation_frame (ui : Dialogs) (operation : string)
    (fileIds : list Z) (st : State) :
  let st' := handleFileOperation ui operation fileIds st in
  selectedFiles st' = []
  /\ activeTab st' = activeTab st
  /\ loading st' = loading st
  /\ quality st' = quality st
  /\ sublist (ids st') (ids st)
  /\ (length (files st') <= length (files st))%nat.
Proof.
  intros st'. pose proof (ids_handleFileOperation ui operation fileIds st) as Hsub.
  destruct (handleFileOperation_cells ui operation fileIds st) as (H1 & H2 & H3 & H4).
  repeat split; try assumption.
  apply sublist_length in Hsub. unfold ids in Hsub.
  now rewrite !length_map in Hsub.
Qed.

(** X15.  A rename keeps the extension of every record, as the code reads it
    (the text after the last dot of the name, or the whole name): a second
    rename changes the prefix only. *)
Theorem rename_keeps_extensions (ui : Dialogs) (fileIds : list Z) (st : State) :
  Forall2
    (fun f f' =>
       extension (FileItem.name f') = extension (FileItem.name f))
    (files st)
    (files (handleFileOperation ui "rename" fileIds st)).
Proof.
  rewrite handleFileOperation_rename.
  destruct (prompt ui rename_prompt) as [newName|];
    [|now apply Forall2_refl].
  destruct (JS.truthy newName); [|now apply Forall2_refl].
  apply Forall2_map_r. intros f.
  destruct (includes fileIds (FileItem.id f)); [|reflexivity].
  apply renamed_extension.
Qed.

(** *** The lists of the tabs under a rename *)

Lemma lower_app (a b : string) :
  Text.lower (a ++ b) = Text.lower a ++ Text.lower b.
Proof.
  induction a as [|c a IH]; [reflexivity|].
  rewrite append_cons_l. cbn [Text.lower]. now rewrite append_cons_l, IH.
Qed.

Lemma endsWith_unfold (suffix s : string) :
  Text.endsWith suffix s
  = String.eqb suffix s
    || match s with
       | EmptyString => false
       | String _ s' => Text.endsWith suffix s'
       end.
Proof. now destruct s. Qed.

Lemma endsWith_app (a suffix : string) : Text.endsWith suffix (a ++ suffix) = true.
Proof.
  induction a as [|c a IH].
  - rewrite append_nil_l, endsWith_unfold, String.eqb_refl. reflexivity.
  - rewrite append_cons_l, endsWith_unfold, IH. apply orb_true_r.
Qed.

Lemma endsWith_inv (suffix s : string) :
  Text.endsWith suffix s = true -> exists a, s = a ++ suffix.
Proof.
  induction s as [|c s IH]; rewrite endsWith_unfold; intros H;
    apply orb_true_iff in H as [H|H].
  - apply String.eqb_eq in H as ->. now exists "".
  - discriminate.
  - apply String.eqb_eq in H as ->. now exists "".
  - destruct (IH H) as (a & ->). now exists (String c a).
Qed.

Lemma lower_split (s x y : string) :
  Text.lower s = x ++ y ->
  exists x' y', s = x' ++ y' /\ Text.lower x' = x /\ Text.lower y' = y.
Proof.
  revert s. induction x as [|c x IH]; intros s H.
  - now exists "", s.
  - destruct s as [|d s]; [discriminate|].
    rewrite append_cons_l in H. cbn [Text.lower] in H.
    injection H as Hd Hs. destruct (IH s Hs) as (x' & y' & -> & Hx & Hy).
    exists (String d x'), y'. cbn [Text.lower]. now rewrite Hd, Hx.
Qed.

Lemma lower_ascii_dot (c : ascii) : Text.lower_ascii c = "."%char -> c = "."%char.
Proof.
  destruct c as [[] [] [] [] [] [] [] []]; vm_compute; congruence.
Qed.

Lemma dotless_lower (s : string) : dotless (Text.lower s) -> dotless s.
Proof.
  unfold dotless. induction s as [|c s IH]; [constructor|].
  cbn [Text.lower list_ascii_of_string]. intros H.
  apply Forall_cons in H as [Hc Hs]. constructor; [|now apply IH].
  intros ->. now apply Hc.
Qed.

Lemma document_extensions_dotless : Forall dotless document_extensions.
Proof. repeat constructor; discriminate. Qed.

(** A name with a document extension keeps one when it is replaced by any
    stem, a dot and its extension. *)
Lemma has_document_extension_kept (stem name : string) :
  has_document_extension name = true ->
  has_document_extension (stem ++ "." ++ extension name) = true.
Proof.
  unfold has_document_extension. rewrite !existsb_exists.
  intros (e & He & Hends). exists e. split; [exact He|].
  assert (He' : dotless e).
  { apply list_elem_of_In in He.
    exact (proj1 (Forall_forall _ _) document_extensions_dotless e He). }
  apply endsWith_inv in Hends as (a & Ha).
  apply lower_split in Ha as (a' & y' & -> & _ & Hy).
  destruct y' as [|c e']; [discriminate|].
  change ("." ++ e) with (String "." e) in Hy. cbn [Text.lower] in Hy.
  injection Hy as Hc He''. apply lower_ascii_dot in Hc as ->.
  change (String "." e') with ("." ++ e').
  assert (dotless e') by (apply dotless_lower; now rewrite He'').
  rewrite extension_after_last_dot by assumption.
  rewrite <- append_assoc, lower_app, He''.
  change (String "." e) with ("." ++ e).
  rewrite lower_app. change (Text.lower ".") with ".".
  rewrite append_assoc. apply endsWith_app.
Qed.

(** X16.  A rename takes no record out of the list of the conversion tab, and
    neither into nor out of the list of the compression tab. *)
Theorem rename_keeps_tab_lists (ui : Dialogs) (fileIds : list Z) (st : State) :
  Forall2
    (fun f f' =>
       (convertible f = true -> convertible f' = true)
       /\ is_image f' = is_image f)
    (files st)
    (files (handleFileOperation ui "rename" fileIds st)).
Proof.
  rewrite handleFileOperation_rename.
  destruct (prompt ui rename_prompt) as [newName|];
    [|now apply Forall2_refl].
  destruct (JS.truthy newName); [|now apply Forall2_refl].
  apply Forall2_map_r. intros f.
  destruct (includes fileIds (FileItem.id f)); [|now split].
  split; [|reflexivity].
  unfold convertible, renamed. cbn [FileItem.with_name FileItem.name FileItem.type].
  intros H. apply orb_true_iff in H as [H|H]; [now rewrite H|].
  apply orb_true_iff. right.
  rewrite <- (append_assoc "-"), <- (append_assoc newName).
  now apply has_document_extension_kept.
Qed.

(** *** Upload, then delete *)

(** X17.  Deleting the records of an upload gives the list back as it was
    before the upload, when none of their identifiers was in the list already.
    *)
Theorem upload_then_delete (Date_now : nat -> Z) (uploadedFiles : list File.t)
    (ui : Dialogs) (st : State) :
  let uploaded := handleFileUpload Date_now (Some uploadedFiles) st in
  let new_ids := FileItem.id <$> newFiles Date_now uploadedFiles in
  (forall x, x ∈ ids st -> x ∉ new_ids) ->
  confirm ui (delete_question new_ids) = true ->
  files (handleFileOperation ui "delete" new_ids uploaded) = files st.
Proof.
  intros uploaded new_ids Hfresh Hyes.
  rewrite handleFileOperation_delete, Hyes. subst uploaded. cbn [handleFileUpload setFiles files].
  rewrite filter_app.
  assert (filter (fun f => FileItem.id f ∉ new_ids) (files st) = files st) as ->.
  { clear Hyes. unfold ids in Hfresh.
    induction (files st) as [|f l IH]; [reflexivity|].
    rewrite filter_cons, decide_True.
    - f_equal. apply IH. intros x Hx. apply Hfresh. now right.
    - apply Hfresh. cbn. left. }
  assert (filter (fun f => FileItem.id f ∉ new_ids)
            (newFiles Date_now uploadedFiles) = []) as ->.
  { subst new_ids. generalize (newFiles Date_now uploadedFiles). intros l.
    assert (H : forall l', (forall f, f ∈ l' -> FileItem.id f ∈ FileItem.id <$> l) ->
                     filter (fun f => FileItem.id f ∉ FileItem.id <$> l) l' = []).
    { induction l' as [|f l' IH]; intros Hin; [reflexivity|].
      rewrite filter_cons, decide_False.
      - apply IH. intros g Hg. apply Hin. now right.
      - intros Hnot. apply Hnot, Hin. left. }
    apply H. intros f Hf. now apply list_elem_of_fmap_2. }
  apply app_nil_r.
Qed.

(** *** The new name *)

(** A name is its extension, or a stem, a dot and its extension. *)
Lemma extension_decompose (name : string) :
  name = extension name \/ exists stem, name = stem ++ "." ++ extension name.
Proof.
  unfold extension, JS.pop. induction name as [|c s IH].
  - now left.
  - rewrite split_dot_cons.
    pose proof (split_dot_nonempty s) as Hne.
    destruct (JS.split "." s) as [|p ps] eqn:E; [congruence|].
    destruct (Ascii.eqb_spec c ".") as [->|Hc].
    + rewrite last_cons_nonempty by discriminate. right.
      destruct IH as [IH|(stem & IH)].
      * exists "". now rewrite <- IH.
      * exists (String "." stem). rewrite append_cons_l. now rewrite <- IH.
    + destruct ps as [|q ps].
      * left. cbn [List.last] in *. destruct IH as [->|(stem & IH)]; [reflexivity|].
        exfalso. destruct (split_dot_two stem p) as (a & b & l & Htwo).
        change ("." ++ p) with (String "." p) in IH.
        rewrite <- IH, E in Htwo. discriminate.
      * rewrite last_cons_nonempty by discriminate.
        rewrite last_cons_nonempty in IH by discriminate.
        right. destruct IH as [IH|(stem & IH)].
        -- exfalso. pose proof (split_dot_pieces s) as Hpieces.
           rewrite E in Hpieces.
           assert (Hlast : dotless (List.last (q :: ps) "")).
           { apply Forall_cons in Hpieces as [_ Hrest].
             clear -Hrest. revert q Hrest.
             induction ps as [|x ps IHps]; intros q Hrest.
             - now apply Forall_cons in Hrest as [? _].
             - rewrite last_cons_nonempty by discriminate.
               apply IHps. now apply Forall_cons in Hrest as [_ ?]. }
           rewrite <- IH in Hlast. apply split_dotless in Hlast.
           rewrite E in Hlast. discriminate.
        -- exists (String c stem). rewrite append_cons_l. now rewrite <- IH.
Qed.

(** X14.  The name a rename gives: the prefix, a hyphen, the identifier, a dot
    and an extension without a dot, which is what follows the last dot of the
    old name, or the whole old name when it has no dot. *)
Theorem renamed_name (newName : string) (f : FileItem.t) :
  exists ext,
    FileItem.name (renamed newName f)
    = newName ++ "-" ++ JS.show (FileItem.id f) ++ "." ++ ext
    /\ dotless ext
    /\ (FileItem.name f = ext
        \/ exists stem, FileItem.name f = stem ++ "." ++ ext).
Proof.
  exists (extension (FileItem.name f)). split; [reflexivity|].
  split; [apply extension_is_dotless | apply extension_decompose].
Qed.

(** ** The page: checkboxes, toolbar and sessions *)

Lemma includes_false (fileIds : list Z) (x : Z) :
  includes fileIds x = false <-> x ∉ fileIds.
Proof. unfold includes. apply bool_decide_eq_false. Qed.

Lemma includes_after_toggle (selected : list Z) (x y : Z) (on : bool) :
  includes
    (if on then (selected ++ [x])%list else filter (fun id => id <> x) selected)
    y
  = if Z.eq_dec y x then on else includes selected y.
Proof.
  destruct (Z.eq_dec y x) as [->|Hne].
  - destruct on.
    + apply includes_spec, elem_of_app. right. apply list_elem_of_here.
    + apply includes_false. rewrite list_elem_of_filter. tauto.
  - destruct (includes selected y) eqn:E.
    + apply includes_spec in E. apply includes_spec. destruct on.
      * apply elem_of_app. now left.
      * now apply list_elem_of_filter.
    + apply includes_false in E. apply includes_false. destruct on.
      * rewrite elem_of_app, list_elem_of_singleton. tauto.
      * rewrite list_elem_of_filter. tauto.
Qed.

Lemma selectedFiles_toggle (file : FileItem.t) (on : bool) (st : State) :
  selectedFiles (toggle file on st)
  = if on then (selectedFiles st ++ [FileItem.id file])%list
    else filter (fun id => id <> FileItem.id file) (selectedFiles st).
Proof. now destruct on. Qed.

(** X18.  A click on the checkbox of a record flips what the checkbox shows,
    and with it the checkbox of every record of the same identifier; the other
    checkboxes and the list of files stay as they are. *)
Theorem check_flips (st : State) (file : FileItem.t) :
  let st' := perform st (Check file) in
  checked st' file = negb (checked st file)
  /\ (forall other,
        checked st' other
        = if Z.eq_dec (FileItem.id other) (FileItem.id file)
          then negb (checked st file) else checked st other)
  /\ files st' = files st.
Proof.
  intros st'. subst st'. cbn [perform].
  assert (Hother : forall other,
             checked (toggle file (negb (checked st file)) st) other
             = if Z.eq_dec (FileItem.id other) (FileItem.id file)
               then negb (checked st file) else checked st other).
  { intros other. unfold checked at 1.
    rewrite selectedFiles_toggle. apply includes_after_toggle. }
  split; [|split].
  - rewrite Hother. now destruct (Z.eq_dec _ _).
  - exact Hother.
  - now destruct (negb (checked st file)).
Qed.

Lemma filter_not_in (selected : list Z) (x : Z) :
  x ∉ selected -> filter (fun id => id <> x) selected = selected.
Proof.
  induction selected as [|y l IH]; intros H; [reflexivity|].
  apply not_elem_of_cons in H as [Hne Hl].
  rewrite filter_cons, decide_True by congruence. now rewrite IH.
Qed.

(** X19.  Checking a record and unchecking it gives the page back as it was.
    *)
Theorem check_then_uncheck (st : State) (file : FileItem.t) :
  checked st file = false ->
  perform (perform st (Check file)) (Check file) = st.
Proof.
  intros Hoff. cbn [perform]. rewrite Hoff. cbn [negb].
  assert (Hon : checked (toggle file true st) file = true).
  { unfold checked. apply includes_spec. cbn.
    apply elem_of_app. right. apply list_elem_of_here. }
  rewrite Hon. cbn [negb toggle]. unfold updateSelectedFiles.
  cbn [selectedFiles activeTab files loading message quality].
  rewrite filter_app, filter_cons, decide_False by tauto.
  rewrite filter_nil, app_nil_r, filter_not_in;
    [now destruct st | now apply includes_false].
Qed.

(** *** Sessions *)

Lemma convertDocument_cells (browser : Browser) (file : FileItem.t)
    (targetFormat : string) (w : World) :
  same_cells (state w) (after (convertDocument browser file targetFormat w)).
Proof.
  unfold convertDocument, convert_try.
  destruct (fetch browser _) as [[response|]|]; [| now repeat split..].
  destruct (Http.ok response); [|now repeat split].
  destruct (Http.blob response) as [[blob|]|]; [| now repeat split..].
  destruct (createObjectURL browser blob); now repeat split.
Qed.

Lemma compressImages_cells (browser : Browser) (fmt : Z -> string)
    (pct : Z -> Z -> string) (images : list FileItem.t) (w : World) :
  same_cells (state w) (after (compressImages browser fmt pct images w)).
Proof.
  rewrite compressImages_cases. now repeat split.
Qed.

Lemma ids_handleFileUpload (Date_now : nat -> Z)
    (uploadedFiles : option (list File.t)) (st : State) (x : Z) :
  x ∈ ids st -> x ∈ ids (handleFileUpload Date_now uploadedFiles st).
Proof.
  destruct uploadedFiles as [uploadedFiles|]; [|auto].
  unfold ids. cbn. rewrite map_app, elem_of_app. now left.
Qed.

(** Every action the page offers keeps the invariant. *)
Lemma perform_invariant (st : State) (a : Action) :
  page_invariant st -> offered st a -> page_invariant (perform st a).
Proof.
  intros (Hsel & Hnodup & Htab & Hq) Hoffered.
  destruct a as [tab|Date_now uploadedFiles|file|ui operation|value|
                 |browser file targetFormat|browser fmt pct file|browser fmt pct];
    cbn [perform offered] in *.
  - now repeat split.
  - repeat split; try assumption.
    + intros x Hx. apply ids_handleFileUpload, Hsel.
      now destruct uploadedFiles.
    + now destruct uploadedFiles.
    + now destruct uploadedFiles.
    + now destruct uploadedFiles.
    + now destruct uploadedFiles.
  - destruct Hoffered as [_ Hfile].
    assert (Hid : FileItem.id file ∈ ids st).
    { unfold ids. change (map FileItem.id ?l) with (FileItem.id <$> l).
      now apply list_elem_of_fmap_2. }
    unfold page_invariant, ids.
    rewrite selectedFiles_toggle.
    assert (Hcells : files (toggle file (negb (checked st file)) st) = files st
                     /\ activeTab (toggle file (negb (checked st file)) st)
                        = activeTab st
                     /\ quality (toggle file (negb (checked st file)) st)
                        = quality st)
      by (destruct (negb (checked st file)); now repeat split).
    destruct Hcells as (-> & -> & ->).
    split; [|split; [|split; assumption]].
    + intros x Hx. destruct (checked st file); cbn [negb] in Hx.
      * apply list_elem_of_filter in Hx as [_ Hx]. now apply Hsel.
      * apply elem_of_app in Hx as [Hx|Hx]; [now apply Hsel|].
        apply list_elem_of_singleton in Hx as ->. exact Hid.
    + destruct (checked st file) eqn:E; cbn [negb].
      * now apply NoDup_filter.
      * apply NoDup_app. repeat split; [assumption| |apply NoDup_singleton].
        intros x Hx Hx'. apply list_elem_of_singleton in Hx' as ->.
        now apply includes_false in E.
  - destruct (handleFileOperation_cells ui operation (selectedFiles st) st)
      as (Hs & Ht & _ & Hquality).
    unfold page_invariant.
    rewrite Hs, Ht, Hquality.
    split; [|split; [apply NoDup_nil_2 | split; assumption]].
    intros x Hx. now apply elem_of_nil in Hx.
  - destruct Hoffered as [_ Hvalue]. now repeat split.
  - now repeat split.
  - destruct (convertDocument_cells browser file targetFormat (mkWorld st []))
      as (Hf & Hs & Ht & Hquality).
    cbn [state] in *. unfold page_invariant, ids. now rewrite Hf, Hs, Ht, Hquality.
  - destruct (compressImages_cells browser fmt pct [file] (mkWorld st []))
      as (Hf & Hs & Ht & Hquality).
    cbn [state] in *. unfold page_invariant, ids. now rewrite Hf, Hs, Ht, Hquality.
  - destruct (compressImages_cells browser fmt pct (images st) (mkWorld st []))
      as (Hf & Hs & Ht & Hquality).
    cbn [state] in *. unfold page_invariant, ids. now rewrite Hf, Hs, Ht, Hquality.
Qed.

(** X21.  Throughout a session that starts with the empty page, every selected
    identifier is the identifier of a record of the list, no identifier is
    selected twice, the tab is one of the three tabs and the quality is
    between 10 and 100. *)
Theorem session_invariant (actions : list Action) (st : State) :
  session initial actions st -> page_invariant st.
Proof.
  assert (Hinit : page_invariant initial).
  { repeat split; cbn; try lia.
    - intros x Hx. now apply elem_of_nil in Hx.
    - apply NoDup_nil_2.
    - apply list_elem_of_here. }
  revert Hinit. generalize initial.
  intros st0 H0 Hsession.
  induction Hsession as [st1|st1 a rest st2 Hoffered _ IH]; [exact H0|].
  apply IH. now apply perform_invariant.
Qed.

(** No user action turns [loading] off: the synchronous handlers do not
    write it, and while it is on the page offers neither a conversion nor a
    compression. *)
Lemma perform_loading (st : State) (a : Action) :
  loading st = true -> offered st a -> loading (perform st a) = true.
Proof.
  intros Hon Hoffered.
  destruct a as [tab|Date_now uploadedFiles|file|ui operation|value|
                 |browser file targetFormat|browser fmt pct file|browser fmt pct];
    cbn [perform offered] in *.
  - exact Hon.
  - now destruct uploadedFiles.
  - now destruct (negb (checked st file)).
  - destruct (handleFileOperation_cells ui operation (selectedFiles st) st)
      as (_ & _ & -> & _). exact Hon.
  - exact Hon.
  - exact Hon.
  - destruct Hoffered as (_ & _ & _ & Hoff). congruence.
  - destruct Hoffered as (_ & _ & Hoff). congruence.
  - destruct Hoffered as (_ & _ & Hoff). congruence.
Qed.

(** X22.  Once [loading] is on at the start of a session, as it is after a
    conversion whose request is never answered, it is on at the end of it:
    the buttons that convert and compress stay disabled whatever the user
    does. *)
Theorem loading_stays_on (st : State) (actions : list Action) (st' : State) :
  loading st = true -> session st actions st' -> loading st' = true.
Proof.
  intros Hon Hsession.
  induction Hsession as [st1|st1 a rest st2 Hoffered _ IH]; [exact Hon|].
  apply IH. now apply perform_loading.
Qed.

(** X20.  From a page with no selection and no two records of the same
    identifier, checking one record and confirming the delete removes that
    record and no other. *)
Theorem delete_checked_record (ui : Dialogs) (st : State) (file : FileItem.t) :
  selectedFiles st = [] ->
  NoDup (ids st) ->
  file ∈ files st ->
  confirm ui (delete_question [FileItem.id file]) = true ->
  let st' := perform (perform st (Check file)) (Toolbar ui "delete") in
  exists before behind,
    files st = (before ++ file :: behind)%list
    /\ files st' = (before ++ behind)%list
    /\ selectedFiles st' = [].
Proof.
  intros Hnone Hnodup Hin Hyes st'.
  assert (Hsel : selectedFiles (perform st (Check file)) = [FileItem.id file]).
  { cbn [perform]. unfold checked. rewrite Hnone.
    change (includes [] (FileItem.id file)) with false. cbn [negb].
    rewrite selectedFiles_toggle, Hnone. reflexivity. }
  assert (Hfiles : files (perform st (Check file)) = files st).
  { cbn [perform]. now destruct (negb (checked st file)). }
  subst st'. cbn [perform] in Hsel |- *. rewrite Hsel.
  destruct (handleFileOperation_cells ui "delete" [FileItem.id file]
              (toggle file (negb (checked st file)) st)) as (Hs & _).
  rewrite handleFileOperation_delete, Hyes.
  cbn [perform] in Hfiles. rewrite Hfiles.
  apply list_elem_of_split in Hin as (before & behind & Hsplit).
  exists before, behind. split; [exact Hsplit|]. split; [|exact Hs].
  unfold ids in Hnodup. rewrite Hsplit in Hnodup |- *.
  rewrite map_app in Hnodup. cbn [map] in Hnodup.
  apply NoDup_app in Hnodup as (_ & Hdisjoint & Hrest).
  apply NoDup_cons in Hrest as [Hbehind _].
  rewrite filter_app, filter_cons, decide_False.
  2:{ intros Hnot. apply Hnot, list_elem_of_here. }
  assert (Hkeep : forall l : list FileItem.t,
             FileItem.id file ∉ map FileItem.id l ->
             filter (fun f => FileItem.id f ∉ [FileItem.id file]) l = l).
  { induction l as [|g l IH]; intros Hg; [reflexivity|].
    cbn [map] in Hg. apply not_elem_of_cons in Hg as [Hne Hg].
    rewrite filter_cons, decide_True.
    - now rewrite IH.
    - rewrite list_elem_of_singleton. congruence. }
  rewrite (Hkeep before), (Hkeep behind); [reflexivity | exact Hbehind |].
  intros Hb. apply (Hdisjoint _ Hb), list_elem_of_here.
Qed.

(** ** The arithmetic of lines 93-103: small images, and proportions *)

Section Proportions.

Import Binary64.
Local Open Scope Q_scope.

Lemma inject_Z_sub (a b : Z) : inject_Z (a - b) == inject_Z a - inject_Z b.
Proof.
  unfold Z.sub. rewrite inject_Z_plus, inject_Z_opp. reflexivity.
Qed.

(** An image within the threshold keeps its size. *)
Lemma to_unsigned_long_of_Z (n : Z) :
  (0 <= n < 2 ^ 32)%Z -> to_unsigned_long (of_Z n) = n.
Proof.
  intros H. unfold to_unsigned_long, of_Z.
  rewrite Qfloor_Z. now apply Z.mod_small.
Qed.

Lemma tiny_smaller : tiny <= 1 # 1267650600228229401496703205376.
Proof. apply Qle_bool_iff. vm_compute. reflexivity. Qed.

(** A rounded value is below the exact one by the rounding error at most. *)
Lemma round_lower (x : Q) :
  0 < x -> x <= 2000 ->
  exists v, round x = Finite v /\ x * (1 - eps) - tiny <= v.
Proof.
  intros Hx Hbig.
  destruct (round_upper x Hx Hbig) as (v & Hv & _ & _).
  exists v. split; [exact Hv|].
  destruct (round_nearest x v Hx Hv) as [[Hlo _] _].
  pose proof (half_ulp x Hx). lra.
Qed.

Lemma div_two_sided (n : Z) :
  (0 < n)%Z ->
  exists v, div (of_Z maxSize) (of_Z n) = Finite v
            /\ 1920 / inject_Z n * (1 - eps) - tiny <= v
            /\ v <= 1920 / inject_Z n * (1 + eps) + tiny.
Proof.
  intros Hn. pose proof (inject_Z_pos n Hn) as Hq.
  unfold div, of_Z, maxSize.
  destruct (Qeq_bool (inject_Z n) 0) eqn:E.
  { apply Qeq_bool_iff in E. lra. }
  clear E. change (inject_Z 1920) with 1920.
  assert (H0 : 0 < 1920 / inject_Z n).
  { apply Qlt_shift_div_l; [exact Hq | lra]. }
  assert (H1 : 1920 / inject_Z n <= 2000).
  { apply Qle_shift_div_r; [exact Hq|].
    assert (1 <= inject_Z n).
    { change 1 with (inject_Z 1). rewrite <- Zle_Qle. lia. }
    lra. }
  destruct (round_upper _ H0 H1) as (v & Hv & _ & Hhi).
  destruct (round_lower _ H0 H1) as (v' & Hv' & Hlo).
  assert (v' = v) as -> by congruence.
  exists v. auto.
Qed.

(** The quotient by the longer side is the smaller quotient. *)
Lemma quotient_antitone (n L : Z) :
  (0 < n <= L)%Z -> 1920 / inject_Z L <= 1920 / inject_Z n.
Proof.
  intros [Hn HL].
  pose proof (inject_Z_pos n Hn) as Hn'.
  assert (HL' : 0 < inject_Z L) by (apply inject_Z_pos; lia).
  assert (Hle : inject_Z n <= inject_Z L) by now rewrite <- Zle_Qle.
  apply Qle_shift_div_l; [exact Hn'|].
  assert (1920 / inject_Z L * inject_Z n == 1920 * inject_Z n / inject_Z L)
    as -> by (field; lra).
  apply Qle_shift_div_r; [exact HL' | lra].
Qed.

(** The ratio is the rounded quotient of [maxSize] by the longer side, up
    to a rounding error. *)
Lemma ratio_two_sided (width height : Z) :
  (0 <= width)%Z -> (0 <= height)%Z ->
  (maxSize < Z.max width height)%Z ->
  exists r,
    min (div (of_Z maxSize) (of_Z width)) (div (of_Z maxSize) (of_Z height))
    = Finite r
    /\ 1920 / inject_Z (Z.max width height) * (1 - eps) - tiny <= r
    /\ r <= 1920 / inject_Z (Z.max width height) * (1 + eps) + tiny.
Proof.
  intros Hw Hh Hbig. unfold maxSize in Hbig.
  set (L := Z.max width height) in *.
  assert (HwL : (width <= L)%Z) by (unfold L; lia).
  assert (HhL : (height <= L)%Z) by (unfold L; lia).
  assert (HL : L = width \/ L = height) by (unfold L; lia).
  destruct (Z.eq_dec width 0%Z) as [Hw0|Hw0];
    [|destruct (Z.eq_dec height 0%Z) as [Hh0|Hh0]].
  - assert (L = height) as HLh by lia. rewrite Hw0, div_zero.
    destruct (div_two_sided height) as (b & -> & Hlo & Hhi); [lia|].
    exists b. rewrite HLh. cbn [min]. auto.
  - assert (L = width) as HLw by lia. rewrite Hh0, div_zero.
    destruct (div_two_sided width) as (a & -> & Hlo & Hhi); [lia|].
    exists a. rewrite HLw. cbn [min]. auto.
  - destruct (div_two_sided width) as (a & -> & Halo & Hahi); [lia|].
    destruct (div_two_sided height) as (b & -> & Hblo & Hbhi); [lia|].
    pose proof (quotient_antitone width L ltac:(lia)) as Hqw.
    pose proof (quotient_antitone height L ltac:(lia)) as Hqh.
    assert (Heps : 0 <= 1 - eps) by (unfold eps; lra).
    assert (Hloa : 1920 / inject_Z L * (1 - eps) - tiny <= a).
    { assert (1920 / inject_Z L * (1 - eps) <= 1920 / inject_Z width * (1 - eps))
        by (apply Qmult_le_compat_r; assumption).
      lra. }
    assert (Hlob : 1920 / inject_Z L * (1 - eps) - tiny <= b).
    { assert (1920 / inject_Z L * (1 - eps) <= 1920 / inject_Z height * (1 - eps))
        by (apply Qmult_le_compat_r; assumption).
      lra. }
    cbn [min]. destruct (Qle_bool a b) eqn:E.
    + apply Qle_bool_iff in E. exists a. split; [reflexivity|].
      split; [exact Hloa|]. destruct HL as [->| ->]; lra.
    + assert (b <= a).
      { destruct (Qlt_le_dec b a) as [H|H]; [lra|].
        apply Qle_bool_iff in H. congruence. }
      exists b. split; [reflexivity|].
      split; [exact Hlob|]. destruct HL as [->| ->]; lra.
Qed.

(** A side scaled by the ratio: the canvas gets the whole part of the
    exact quotient, or one less. *)
Lemma side_bounds (s L : Z) (r : Q) :
  (0 <= s <= L)%Z -> (maxSize < L < 2 ^ 32)%Z ->
  1920 / inject_Z L * (1 - eps) - tiny <= r ->
  r <= 1920 / inject_Z L * (1 + eps) + tiny ->
  (1920 * s / L - 1 <= to_unsigned_long (mul (of_Z s) (Finite r))
   <= 1920 * s / L)%Z.
Proof.
  intros [Hs0 HsL] [HL0 HL1] Hlo Hhi. unfold maxSize in HL0.
  assert (HLpos : 0 < inject_Z L) by (apply inject_Z_pos; lia).
  unfold Qdiv in Hlo, Hhi. set (iL := / inject_Z L) in *.
  assert (HiL : iL * inject_Z L == 1).
  { unfold iL. rewrite Qmult_comm. apply Qmult_inv_r. lra. }
  assert (HiL0 : 0 < iL) by now apply Qinv_lt_0_compat.
  assert (HL32 : inject_Z L <= 4294967296).
  { change 4294967296 with (inject_Z (2 ^ 32)). rewrite <- Zle_Qle. lia. }
  assert (HiL32 : iL * inject_Z L <= iL * 4294967296).
  { rewrite !(Qmult_comm iL). apply Qmult_le_compat_r; lra. }
  destruct tiny_small as [Ht0 _]. pose proof tiny_smaller as Ht1.
  set (q := (1920 * s / L)%Z).
  assert (Hq0 : (0 <= q)%Z) by (apply Z.div_pos; lia).
  assert (Hq1 : (q <= 1920)%Z).
  { apply Z.div_le_upper_bound; lia. }
  destruct (Z.eq_dec s 0%Z) as [->|Hs].
  { assert (q = 0%Z) as -> by reflexivity.
    unfold mul, of_Z, round.
    assert (Qle_bool (inject_Z 0 * r) 0 = true) as ->.
    { apply Qle_bool_iff. change (inject_Z 0) with 0. lra. }
    change (to_unsigned_long (Finite 0)) with 0%Z. lia. }
  assert (Hspos : 0 < inject_Z s) by (apply inject_Z_pos; lia).
  assert (HsL' : inject_Z s <= inject_Z L) by now rewrite <- Zle_Qle.
  set (E := inject_Z s * (1920 * iL)).
  (* the exact quotient and its whole part *)
  assert (HE : E == inject_Z q + inject_Z ((1920 * s) mod L) * iL).
  { pose proof (Z.div_mod (1920 * s) L ltac:(lia)) as Hdiv. fold q in Hdiv.
    assert (Hinj : inject_Z s * 1920
                   == inject_Z L * inject_Z q + inject_Z ((1920 * s) mod L)).
    { rewrite <- inject_Z_mult, <- inject_Z_plus, <- Hdiv.
      rewrite inject_Z_mult. change (inject_Z 1920) with 1920. ring. }
    unfold E.
    assert (inject_Z s * (1920 * iL) == inject_Z s * 1920 * iL) as -> by ring.
    rewrite Hinj.
    assert ((inject_Z L * inject_Z q + inject_Z ((1920 * s) mod L)) * iL
            == inject_Z q * (iL * inject_Z L) + inject_Z ((1920 * s) mod L) * iL)
      as -> by ring.
    rewrite HiL. ring. }
  pose proof (Z.mod_pos_bound (1920 * s) L ltac:(lia)) as [Hrem0 Hrem1].
  assert (Hrem : 0 <= inject_Z ((1920 * s) mod L) * iL <= 1 - iL).
  { split.
    - apply Qmult_le_0_compat; [|lra].
      change 0 with (inject_Z 0). now rewrite <- Zle_Qle.
    - assert (inject_Z ((1920 * s) mod L) <= inject_Z L - 1).
      { change 1 with (inject_Z 1). rewrite <- inject_Z_sub, <- Zle_Qle. lia. }
      assert (inject_Z ((1920 * s) mod L) * iL <= (inject_Z L - 1) * iL)
        by (apply Qmult_le_compat_r; lra).
      assert ((inject_Z L - 1) * iL == iL * inject_Z L - iL) by ring.
      lra. }
  assert (HE1920 : E <= 1920).
  { unfold E.
    assert (inject_Z s * (1920 * iL) <= inject_Z L * (1920 * iL))
      by (apply Qmult_le_compat_r; lra).
    assert (inject_Z L * (1920 * iL) == 1920 * (iL * inject_Z L)) by ring.
    lra. }
  (* the product *)
  assert (Hr : 0 < r) by (unfold eps in *; lra).
  assert (Hx : 0 < inject_Z s * r).
  { apply Qmult_lt_0_compat; assumption. }
  assert (Hx_hi : inject_Z s * r <= E * (1 + eps) + 4294967296 * tiny).
  { assert (inject_Z s * r <= inject_Z s * (1920 * iL * (1 + eps) + tiny)).
    { rewrite !(Qmult_comm (inject_Z s)). apply Qmult_le_compat_r; lra. }
    assert (inject_Z s * (1920 * iL * (1 + eps) + tiny)
            == E * (1 + eps) + inject_Z s * tiny) by (unfold E; ring).
    assert (inject_Z s * tiny <= 4294967296 * tiny)
      by (apply Qmult_le_compat_r; lra).
    lra. }
  assert (Hx_lo : E * (1 - eps) - 4294967296 * tiny <= inject_Z s * r).
  { assert (inject_Z s * (1920 * iL * (1 - eps) - tiny) <= inject_Z s * r).
    { rewrite !(Qmult_comm (inject_Z s)). apply Qmult_le_compat_r; lra. }
    assert (inject_Z s * (1920 * iL * (1 - eps) - tiny)
            == E * (1 - eps) - inject_Z s * tiny) by (unfold E; ring).
    assert (inject_Z s * tiny <= 4294967296 * tiny)
      by (apply Qmult_le_compat_r; lra).
    lra. }
  assert (Hx2000 : inject_Z s * r <= 2000) by (unfold eps in *; lra).
  destruct (round_upper _ Hx Hx2000) as (v & Hv & Hv0 & Hv_hi).
  destruct (round_lower _ Hx Hx2000) as (v' & Hv' & Hv_lo).
  assert (v' = v) as -> by congruence.
  unfold mul, of_Z. rewrite Hv. unfold to_unsigned_long.
  pose proof (Qfloor_le v) as Hfl. pose proof (Qlt_floor v) as Hfu.
  rewrite inject_Z_plus in Hfu. change (inject_Z 1) with 1 in Hfu.
  assert (Hf0 : (0 <= Qfloor v)%Z).
  { change 0%Z with (Qfloor 0). now apply Qfloor_resp_le. }
  assert (Hfq : (Qfloor v < q + 1)%Z).
  { rewrite Zlt_Qlt, inject_Z_plus. change (inject_Z 1) with 1.
    unfold eps in *. lra. }
  assert (Hfq' : (q - 2 < Qfloor v)%Z).
  { rewrite Zlt_Qlt, inject_Z_sub. change (inject_Z 2) with 2.
    unfold eps in *. lra. }
  rewrite Z.mod_small by lia. lia.
Qed.

End Proportions.

(** Lines 93-103 on an image that is within the threshold on both sides:
    the size is kept. *)
Lemma canvas_size_unscaled (width height : Z) :
  0 <= width <= maxSize -> 0 <= height <= maxSize ->
  canvas_size width height = (width, height).
Proof.
  intros Hw Hh. unfold maxSize in *. unfold canvas_size, scaled.
  assert ((maxSize <? width) || (maxSize <? height) = false) as ->.
  { apply orb_false_iff. unfold maxSize. rewrite !Z.ltb_ge. lia. }
  rewrite !to_unsigned_long_of_Z by lia. reflexivity.
Qed.

(** Lines 93-103 on an image above the threshold: the proportions are kept
    to the pixel.  Each side computed is the whole part of
    [1920 * side / longer side], or one less; the longer of the two is
    therefore 1920 or 1919. *)
Lemma canvas_size_proportional (width height : Z) :
  0 <= width < 2 ^ 32 -> 0 <= height < 2 ^ 32 ->
  maxSize < Z.max width height ->
  let longer := Z.max width height in
  maxSize * width / longer - 1 <= fst (canvas_size width height)
    <= maxSize * width / longer
  /\ maxSize * height / longer - 1 <= snd (canvas_size width height)
     <= maxSize * height / longer
  /\ maxSize - 1 <= Z.max (fst (canvas_size width height))
                      (snd (canvas_size width height)) <= maxSize.
Proof.
  intros Hw Hh Hbig longer.
  assert (Hcond : (maxSize <? width) || (maxSize <? height) = true).
  { apply orb_true_iff. rewrite !Z.ltb_lt. lia. }
  unfold canvas_size, scaled. rewrite Hcond.
  destruct (ratio_two_sided width height) as (r & -> & Hlo & Hhi);
    [lia | lia | exact Hbig |].
  fold longer in Hlo, Hhi. cbn [fst snd].
  pose proof (side_bounds width longer r ltac:(unfold longer; lia)
                ltac:(unfold longer; lia) Hlo Hhi) as Hwidth.
  pose proof (side_bounds height longer r ltac:(unfold longer; lia)
                ltac:(unfold longer; lia) Hlo Hhi) as Hheight.
  unfold maxSize in *. split; [exact Hwidth|]. split; [exact Hheight|].
  assert (Hself : 1920 * longer / longer = 1920).
  { apply Z.div_mul. lia. }
  assert (Hwq : 1920 * width / longer <= 1920).
  { apply Z.div_le_upper_bound; unfold longer; lia. }
  assert (Hhq : 1920 * height / longer <= 1920).
  { apply Z.div_le_upper_bound; unfold longer; lia. }
  destruct (Z.max_spec width height) as [[_ Hmax]|[_ Hmax]]; fold longer in Hmax.
  - rewrite <- Hmax in Hheight at 1 3. rewrite Hmax in *. rewrite Hself in Hheight. lia.
  - rewrite <- Hmax in Hwidth at 1 3. rewrite Hmax in *. rewrite Hself in Hwidth. lia.
Qed.

(** ** The further properties at sample inputs *)

(** X2 at a POST request that has no headers. *)
Lemma handler_without_content_type_witness :
  exists msg,
    handler Samples.decoder (Samples.parser []) Samples.bare_post 1700000000000
    = Response.mk 500 ∅ (JS.json_error ("转换失败: " ++ msg)) false.
Proof.
  apply (handler_without_content_type Samples.decoder (Samples.parser [])
           Samples.bare_post 1700000000000).
  - reflexivity.
  - reflexivity.
Defined.

(** X3 at a parser that throws [Boundary not found]. *)
Lemma handler_reports_exception_witness :
  handler Samples.decoder Samples.failing_parser Samples.post 1700000000000
  = Response.mk 500 ∅
      (JS.json_error ("转换失败: " ++ error_message Samples.parse_error)) false.
Proof.
  apply (handler_reports_exception Samples.decoder Samples.failing_parser
           Samples.post 1700000000000
           "multipart/form-data; boundary=----form" Samples.parse_error).
  - reflexivity.
  - reflexivity.
  - right. exists []. split; reflexivity.
Defined.

(** X4 at the header [multipart/form-data; boundary=----form]. *)
Lemma parse_request_boundary_witness :
  parse_request Samples.decoder Samples.failing_parser Samples.post
  = res_bind (Samples.decoder (Event.body Samples.post))
      (fun buf => Samples.failing_parser buf (Some "----form")).
Proof.
  apply (parse_request_boundary Samples.decoder Samples.failing_parser
           Samples.post "multipart/form-data; " "----form").
  - reflexivity.
  - reflexivity.
  - reflexivity.
Defined.

(** X5 at the header [text/plain]. *)
Lemma parse_request_no_boundary_witness :
  parse_request Samples.decoder Samples.failing_parser
    Samples.post_without_boundary
  = res_bind (Samples.decoder (Event.body Samples.post_without_boundary))
      (fun buf => Samples.failing_parser buf None).
Proof.
  apply (parse_request_no_boundary Samples.decoder Samples.failing_parser
           Samples.post_without_boundary "text/plain").
  - reflexivity.
  - reflexivity.
Defined.

(** X8 at a photograph and a text file. *)
Lemma compressImages_fails_on_images_witness :
  compressImages Samples.honest Samples.bytes_text Samples.percent_text
    [Samples.notes_item; Samples.photo_item] Samples.page
  = Settled
      (mkWorld
         (setLoading false
            (setMessage ("压缩失败: " ++ not_a_constructor Samples.honest)
               (state Samples.page)))
         (downloads Samples.page)).
Proof.
  apply (compressImages_fails_on_images Samples.honest Samples.bytes_text
           Samples.percent_text [Samples.notes_item; Samples.photo_item]
           Samples.photo_item Samples.page).
  - apply list_elem_of_further, list_elem_of_here.
  - reflexivity.
Defined.

(** X17 at a list of two files and the upload of a third. *)
Lemma upload_then_delete_witness :
  let uploaded :=
    handleFileUpload (Samples.at_time 1700000000005) (Some [Samples.readme])
      Samples.two_files in
  let new_ids :=
    FileItem.id <$> newFiles (Samples.at_time 1700000000005) [Samples.readme] in
  files (handleFileOperation Samples.accepting "delete" new_ids uploaded)
  = files Samples.two_files.
Proof.
  apply (upload_then_delete (Samples.at_time 1700000000005) [Samples.readme]
           Samples.accepting Samples.two_files).
  - intros x Hx Hnew. apply list_elem_of_singleton in Hnew. subst x.
    apply elem_of_cons in Hx as [Hx|Hx]; [discriminate|].
    apply list_elem_of_singleton in Hx. discriminate.
  - reflexivity.
Defined.

(** X19 at the second of two files. *)
Lemma check_then_uncheck_witness :
  perform (perform Samples.two_files (Check Samples.notes_item))
    (Check Samples.notes_item)
  = Samples.two_files.
Proof.
  apply (check_then_uncheck Samples.two_files Samples.notes_item).
  reflexivity.
Defined.

(** X21 at a visit: an upload of two files, the management tab, a check and a
    confirmed delete. *)
Lemma session_invariant_witness :
  page_invariant (fold_left perform Samples.visit initial).
Proof.
  apply (session_invariant Samples.visit).
  unfold Samples.visit.
  repeat (eapply session_cons; [offer|]).
  apply session_nil.
Defined.

(** The page of [Samples.stuck] is reached from the empty page, and
    [loading] is on there. *)
Lemma stuck_reached :
  session initial Samples.hang Samples.stuck /\ loading Samples.stuck = true.
Proof.
  split; [|reflexivity].
  unfold Samples.hang.
  repeat (eapply session_cons; [offer|]).
  apply session_nil.
Qed.

(** X22 at the page left by a conversion asked of a server that never
    answers. *)
Lemma loading_stays_on_witness :
  loading (fold_left perform Samples.attempts Samples.stuck) = true.
Proof.
  apply (loading_stays_on Samples.stuck Samples.attempts).
  - reflexivity.
  - unfold Samples.attempts.
    repeat (eapply session_cons; [offer|]).
    apply session_nil.
Defined.

(** X20 at the second of two files. *)
Lemma delete_checked_record_witness :
  let st := setSelectedFiles [] Samples.two_files in
  let st' :=
    perform (perform st (Check Samples.notes_item))
      (Toolbar Samples.accepting "delete") in
  exists before behind,
    files st = (before ++ Samples.notes_item :: behind)%list
    /\ files st' = (before ++ behind)%list
    /\ selectedFiles st' = [].
Proof.
  apply (delete_checked_record Samples.accepting
           (setSelectedFiles [] Samples.two_files) Samples.notes_item).
  - reflexivity.
  - repeat constructor; cbn; rewrite ?elem_of_cons, ?elem_of_nil;
      intuition discriminate.
  - repeat constructor.
  - reflexivity.
Defined.

(** X12 at the rename of the first of two files. *)
Lemma handleFileOperation_NoDup_witness :
  NoDup (ids (handleFileOperation (Samples.typing "holiday") "rename"
                [1700000000000] Samples.two_files)).
Proof.
  apply (handleFileOperation_NoDup (Samples.typing "holiday") "rename"
           [1700000000000] Samples.two_files).
  repeat constructor; cbn; rewrite ?elem_of_cons, ?elem_of_nil;
    intuition discriminate.
Defined.

(** X11 at a later upload of two files. *)
Lemma handleFileUpload_NoDup_witness :
  NoDup (ids (handleFileUpload (Samples.at_time 1700000000005)
                (Some [Samples.readme; Samples.notes]) Samples.two_files)).
Proof.
  apply (handleFileUpload_NoDup (Samples.at_time 1700000000005)
           (Some [Samples.readme; Samples.notes]) Samples.two_files).
  - intros i j _. reflexivity.
  - intros x Hx. apply elem_of_cons in Hx as [->|Hx]; [reflexivity|].
    apply list_elem_of_singleton in Hx as ->. reflexivity.
  - repeat constructor; cbn; rewrite ?elem_of_cons, ?elem_of_nil;
      intuition discriminate.
Defined.
